(** * Agents: a shallow embedding of [agent.py] and [agent_final.py]

    The two scripts define a base class [Agent] (name, role, inbox), an
    [AssistantAgent] answering from a dictionary, and, in [agent_final.py],
    a weather lookup and a [KnowledgeGraphAgent] querying a networkx graph.

    Python objects live in a heap addressed by references, so that
    [recipient.message_inbox.append] is visible through every alias of the
    recipient.  Methods are computations in a state-and-exception monad over
    the heap and the standard output.

    Strings: a Python [str] is modelled as a [string] whose characters are
    the code points U+0000..U+00FF; [lower], [strip] and [isspace] follow
    CPython on that range. *)

From Stdlib Require Import ZArith Ascii DecimalString.
From Stdlib Require String.
From stdpp Require Import base strings list gmap.

(** ** Python string primitives *)

Module Py.

(** [str.lower] on one code point below 256: A-Z and the Latin-1 capitals
    U+00C0..U+00DE (without the multiplication sign U+00D7) move up by 32. *)
Definition lower_char (c : ascii) : ascii :=
  let n := N_of_ascii c in
  if ((65 <=? n) && (n <=? 90) ||
      (192 <=? n) && (n <=? 222) && negb (n =? 215))%N
  then ascii_of_N (n + 32) else c.

Fixpoint lower (s : string) : string :=
  match s with
  | EmptyString => EmptyString
  | String c s' => String (lower_char c) (lower s')
  end.

(** [str.isupper] on one code point: the cased characters [lower] moves. *)
Definition isupper_char (c : ascii) : bool :=
  bool_decide (lower_char c ≠ c).

Fixpoint has_upper (s : string) : bool :=
  match s with
  | EmptyString => false
  | String c s' => isupper_char c || has_upper s'
  end.

(** [str.isspace] on one code point below 256. *)
Definition isspace (c : ascii) : bool :=
  let n := N_of_ascii c in
  ((9 <=? n) && (n <=? 13) || (28 <=? n) && (n <=? 32) ||
   (n =? 133) || (n =? 160))%N.

Fixpoint lstrip (chars : ascii → bool) (s : string) : string :=
  match s with
  | EmptyString => EmptyString
  | String c s' => if chars c then lstrip chars s' else s
  end.

Fixpoint rstrip (chars : ascii → bool) (s : string) : string :=
  match s with
  | EmptyString => EmptyString
  | String c s' =>
      match rstrip chars s' with
      | EmptyString => if chars c then EmptyString else String c EmptyString
      | r => String c r
      end
  end.

(** [s.strip()] removes leading and trailing whitespace. *)
Definition strip (s : string) : string := rstrip isspace (lstrip isspace s).

Fixpoint char_in (chars : string) (c : ascii) : bool :=
  match chars with
  | EmptyString => false
  | String d chars' => bool_decide (c = d) || char_in chars' c
  end.

(** [s.strip(chars)] removes leading and trailing characters of [chars]. *)
Definition strip_chars (chars s : string) : string :=
  rstrip (char_in chars) (lstrip (char_in chars) s).

(** [strip_prefix p s] is what follows [p] when [s] starts with [p]. *)
Fixpoint strip_prefix (p s : string) : option string :=
  match p, s with
  | EmptyString, _ => Some s
  | String a p', String b s' =>
      if decide (a = b) then strip_prefix p' s' else None
  | String _ _, EmptyString => None
  end.

(** The text before and after the leftmost occurrence of [sep] in [s]. *)
Fixpoint find (sep s : string) : option (string * string) :=
  match strip_prefix sep s with
  | Some rest => Some (EmptyString, rest)
  | None =>
      match s with
      | EmptyString => None
      | String c s' =>
          match find sep s' with
          | Some (before, after) => Some (String c before, after)
          | None => None
          end
      end
  end.

(** [sub in s]. *)
Definition contains (sub s : string) : bool :=
  match find sub s with Some _ => true | None => false end.

(** [s.split(sep)] for a non-empty [sep]: cut at the leftmost occurrence
    and go on after it.  Each cut consumes at least one character, so
    [String.length s] cuts and one last piece are enough.  (An empty
    separator raises ValueError in Python; the scripts only split on
    the literal ["to "].) *)
Fixpoint split_fuel (fuel : nat) (sep s : string) : list string :=
  match fuel with
  | O => [s]
  | S fuel' =>
      match find sep s with
      | None => [s]
      | Some (before, after) => before :: split_fuel fuel' sep after
      end
  end.

Definition split (sep s : string) : list string :=
  split_fuel (S (String.length s)) sep s.

(** [sep.join(l)]. *)
Fixpoint join (sep : string) (l : list string) : string :=
  match l with
  | [] => EmptyString
  | [x] => x
  | x :: l' => x +:+ sep +:+ join sep l'
  end.

(** [str(n)] for an [int]. *)
Definition str_of_int (z : Z) : string :=
  NilZero.string_of_int (Z.to_int z).

End Py.

(** ** networkx graphs

    [nx.Graph] keeps a dictionary from each node to the dictionary of its
    neighbours; Python dictionaries iterate in insertion order, which
    [neighbors] and [edges] expose, so both levels are association lists in
    insertion order.  Only what the scripts call is modelled: [Graph()],
    [add_edge], [n in G], [G.neighbors(n)], and the node and edge views.
    Nodes are strings, as in every graph the scripts build; networkx takes
    any hashable object as a node, and graphs with other nodes are outside
    this model. *)

Module nx.

Record Graph := mkGraph { adj : list (string * list string) }.

(** [nx.Graph()]. *)
Definition empty : Graph := mkGraph [].

(** [G.nodes], in insertion order. *)
Definition nodes (g : Graph) : list string := (adj g).*1.

(** [n in G]. *)
Definition has_node (g : Graph) (n : string) : bool :=
  bool_decide (n ∈ nodes g).

Fixpoint assoc (n : string) (l : list (string * list string))
  : option (list string) :=
  match l with
  | [] => None
  | (m, nbrs) :: l' => if decide (m = n) then Some nbrs else assoc n l'
  end.

(** [list(G.neighbors(n))]; [None] stands for the NetworkXError raised
    when [n] is not a node. *)
Definition neighbors (g : Graph) (n : string) : option (list string) :=
  assoc n (adj g).

Definition add_node (n : string) (g : Graph) : Graph :=
  if has_node g n then g else mkGraph (adj g ++ [(n, [])]).

(** [adj[u][v] = {}]: a new key goes last, an existing key keeps its place. *)
Fixpoint set_nbr (u v : string) (l : list (string * list string))
  : list (string * list string) :=
  match l with
  | [] => []
  | (n, nbrs) :: l' =>
      if decide (n = u)
      then (n, if decide (v ∈ nbrs) then nbrs else nbrs ++ [v]) :: l'
      else (n, nbrs) :: set_nbr u v l'
  end.

(** [G.add_edge(u, v)]: add the missing end points, then link both ways. *)
Definition add_edge (u v : string) (g : Graph) : Graph :=
  let g' := add_node v (add_node u g) in
  mkGraph (set_nbr v u (set_nbr u v (adj g'))).

(** [list(G.edges)]: every node in order, paired with those of its
    neighbours that have not been listed as a node before it. *)
Fixpoint edges_go (seen : list string) (l : list (string * list string))
  : list (string * string) :=
  match l with
  | [] => []
  | (n, nbrs) :: l' =>
      ((λ nbr, (n, nbr)) <$> filter (λ nbr, nbr ∉ seen) nbrs)
        ++ edges_go (n :: seen) l'
  end.

Definition edges (g : Graph) : list (string * string) := edges_go [] (adj g).

End nx.

(** ** Objects, the heap, and the monad of method calls *)

Definition ref := nat.

(** What a subclass adds to the attributes of [Agent]. *)
Inductive subclass :=
  | IsAgent
  | IsAssistantAgent (knowledge_base : gmap string string)
  | IsKnowledgeGraphAgent (graph : nx.Graph).

Record Agent := mkAgent {
  name : string;
  role : string;
  message_inbox : list string;
  fields : subclass
}.

(** [print] appends its argument to [stdout], one entry per call. *)
Record world := World {
  heap : gmap ref Agent;
  stdout : list string
}.

(** A raised exception: whether its class derives from [Exception] (what
    [except Exception] tests), and [str(e)]. *)
Record exn := Exn {
  is_Exception : bool;
  str_of_exn : string
}.

Inductive outcome (A : Type) :=
  | Return (a : A)
  | Raise (e : exn).
Arguments Return {A} a.
Arguments Raise {A} e.

(** A method call runs from a world to an outcome and the world it leaves;
    what was written before an exception stays written. *)
Definition M (A : Type) : Type := world → outcome A * world.

#[export] Instance M_ret : MRet M := λ A a w, (Return a, w).

#[export] Instance M_bind : MBind M := λ A B f m w,
  match m w with
  | (Return a, w') => f a w'
  | (Raise e, w') => (Raise e, w')
  end.

Definition raise {A} (e : exn) : M A := λ w, (Raise e, w).

Definition print (line : string) : M unit := λ w,
  (Return (), World (heap w) (stdout w ++ [line])).

(** [try: body except Exception as e: handler e]. *)
Definition try_except_Exception {A} (body : M A) (handler : exn → M A) : M A :=
  λ w,
  match body w with
  | (Raise e, w') => if is_Exception e then handler e w' else (Raise e, w')
  | r => r
  end.

(** Reading through a reference.  Python references are always live; the
    model raises on a reference that was never allocated. *)
Definition dangling : exn := Exn true "dangling reference".

Definition load (r : ref) : M Agent := λ w,
  match heap w !! r with
  | Some o => (Return o, w)
  | None => (Raise dangling, w)
  end.

Definition alloc (o : Agent) : M ref := λ w,
  let r := fresh (dom (heap w)) in
  (Return r, World (<[r := o]> (heap w)) (stdout w)).

Definition AttributeError (attr : string) : exn :=
  Exn true ("object has no attribute '" +:+ attr +:+ "'").

Definition nl : string := String (ascii_of_N 10) EmptyString.

(** ** The class [Agent], the same in both scripts

    In [agent_final.py] [act] is a coroutine; awaiting it runs the same body. *)

(** [Agent.__init__]. *)
Definition Agent_init (name role : string) : M ref :=
  alloc (mkAgent name role [] IsAgent).

(** [Agent.act]. *)
Definition Agent_act (self : ref) (prompt : string) : M string :=
  o ← load self;
  let response :=
    match prompt with
    | String _ _ =>
        "Agent " +:+ name o +:+ " (" +:+ role o
          +:+ ") is acting on prompt: '" +:+ prompt +:+ "'."
    | EmptyString =>
        "Agent " +:+ name o +:+ " (" +:+ role o
          +:+ ") is performing a generic action."
    end in
  print response;;
  mret response.

(** [recipient.message_inbox.append(message)]. *)
Definition inbox_append (recipient : ref) (message : string) : M unit := λ w,
  match heap w !! recipient with
  | Some o =>
      let o' := mkAgent (name o) (role o) (message_inbox o ++ [message])
                        (fields o) in
      (Return (), World (<[recipient := o']> (heap w)) (stdout w))
  | None => (Raise dangling, w)
  end.

(** [Agent.send_message]. *)
Definition send_message (self recipient : ref) (message : string) : M unit :=
  s ← load self;
  r ← load recipient;
  print ("Agent " +:+ name s +:+ " is sending a message to " +:+ name r
           +:+ ": '" +:+ message +:+ "'");;
  inbox_append recipient message.
(** [self.knowledge_base]. *)
Definition get_knowledge_base (o : Agent) : M (gmap string string) :=
  match fields o with
  | IsAssistantAgent kb => mret kb
  | _ => raise (AttributeError "knowledge_base")
  end.

(** [self.graph]. *)
Definition get_graph (o : Agent) : M nx.Graph :=
  match fields o with
  | IsKnowledgeGraphAgent g => mret g
  | _ => raise (AttributeError "graph")
  end.

(** The default of [knowledge_base.get] in both scripts. *)
Definition fallback : string :=
  "I'm sorry, I don't understand that request. Try asking for 'help'.".

(** [prompt.lower().strip()]. *)
Definition normalize (prompt : string) : string := Py.strip (Py.lower prompt).

(** The two lines [AssistantAgent.act] prints before it returns. *)
Definition print_exchange (o : Agent) (prompt response : string) : M unit :=
  print ("Assistant Agent " +:+ name o +:+ " received prompt: '" +:+ prompt
           +:+ "'");;
  print ("Assistant Agent " +:+ name o +:+ " responding: '" +:+ response
           +:+ "'").

(** ** [agent.py] *)

Module agent.

(** The dictionary built by [AssistantAgent.__init__]. *)
Definition knowledge_base (name : string) : gmap string string :=
  <["hello" := "Hello! How can I help you today?"]>
  (<["weather" := "I can't check the current weather, but I can tell you it's always sunny in my code!"]>
  (<["name" := "My name is " +:+ name +:+ ". What's yours?"]>
  (<["time" := "I don't have access to real-time information, but it's a great time to code!"]>
  (<["help" := "I can help you with questions about my name, the weather, and general greetings."]>
   ∅)))).

(** [AssistantAgent.__init__]; [role] defaults to ["assistant"]. *)
Definition AssistantAgent_init (name role : string) : M ref :=
  alloc (mkAgent name role [] (IsAssistantAgent (knowledge_base name))).

(** [AssistantAgent.act]. *)
Definition AssistantAgent_act (self : ref) (prompt : string) : M string :=
  o ← load self;
  let clean_prompt := normalize prompt in
  kb ← get_knowledge_base o;
  let response := default fallback (kb !! clean_prompt) in
  print_exchange o prompt response;;
  mret response.

End agent.

(** ** [agent_final.py] *)

Module agent_final.

(** The dictionary built by [AssistantAgent.__init__]: no ["weather"] key. *)
Definition knowledge_base (name : string) : gmap string string :=
  <["hello" := "Hello! How can I help you today?"]>
  (<["name" := "My name is " +:+ name +:+ ". What's yours?"]>
  (<["time" := "I don't have access to real-time information, but it's a great time to code!"]>
  (<["help" := "I can help you with questions about my name, the weather, and general greetings."]>
   ∅))).

(** [AssistantAgent.__init__].  The [python_weather] client it creates is
    an opaque collaborator: what awaiting [weather_client.get(city)] yields
    is given by the environment, see [weather_client]. *)
Definition AssistantAgent_init (name role : string) : M ref :=
  alloc (mkAgent name role [] (IsAssistantAgent (knowledge_base name))).

(** What [await self.weather_client.get(city)] yields: a forecast whose
    [current.temperature] is an [int] and [current.description] a [str],
    or a raised exception. *)
Inductive client_result :=
  | Forecast (temperature : Z) (description : string)
  | ClientRaises (e : exn).

Definition weather_client := string → client_result.

Definition await_get (client : weather_client) (city : string)
  : M (Z * string) :=
  match client city with
  | Forecast temperature description => mret (temperature, description)
  | ClientRaises e => raise e
  end.

(** The degree sign U+00B0. *)
Definition degree : string := String (ascii_of_N 176) EmptyString.

(** [AssistantAgent.get_weather_info]. *)
Definition get_weather_info (client : weather_client) (self : ref)
    (city : string) : M string :=
  try_except_Exception
    ('(temperature, description) ← await_get client city;
     mret ("The current temperature in " +:+ city +:+ " is "
             +:+ Py.str_of_int temperature +:+ degree +:+ "C with "
             +:+ description +:+ "."))
    (λ e, mret ("Sorry, I couldn't get the weather for " +:+ city
                  +:+ ". Error: " +:+ str_of_exn e)).

(** [AssistantAgent.act]. *)
Definition AssistantAgent_act (client : weather_client) (self : ref)
    (prompt : string) : M string :=
  o ← load self;
  let clean_prompt := normalize prompt in
  if Py.contains "weather" clean_prompt then
    response ← get_weather_info client self "Bangalore";
    print_exchange o prompt response;;
    mret response
  else
    kb ← get_knowledge_base o;
    let response := default fallback (kb !! clean_prompt) in
    print_exchange o prompt response;;
    mret response.

(** [KnowledgeGraphAgent.__init__]; the agent keeps the caller's graph. *)
Definition KnowledgeGraphAgent_init (name : string) (graph : nx.Graph)
    (role : string) : M ref :=
  alloc (mkAgent name role [] (IsKnowledgeGraphAgent graph)).

Definition format_error : string :=
  "Query format not understood. Please use 'Who is connected to [Node Name]?''".

(** [parts[1].strip("? ")] when [query.lower().split("to ")] has at least
    two parts. *)
Definition target_node (query : string) : option string :=
  match Py.split "to " (Py.lower query) with
  | _ :: part1 :: _ => Some (Py.strip_chars "? " part1)
  | _ => None
  end.

(** [KnowledgeGraphAgent.act]. *)
Definition KnowledgeGraphAgent_act (self : ref) (query : string) : M string :=
  o ← load self;
  print (nl +:+ "Knowledge Graph Agent " +:+ name o +:+ " received query: '"
           +:+ query +:+ "'");;
  match target_node query with
  | None => mret format_error
  | Some target =>
      g ← get_graph o;
      if negb (nx.has_node g target) then
        mret ("The node '" +:+ target +:+ "' does not exist in the graph.")
      else
        match nx.neighbors g target with
        | None => raise (Exn true ("The node " +:+ target +:+ " is not in the graph."))
        | Some neighbors =>
            let response :=
              match neighbors with
              | [] => "'" +:+ target +:+ "' has no connections in the graph."
              | _ => "The following are connected to '" +:+ target +:+ "': "
                       +:+ Py.join ", " neighbors +:+ "."
              end in
            print ("Knowledge Graph Agent " +:+ name o +:+ " responding: '"
                     +:+ response +:+ "'");;
            mret response
        end
  end.

(** The graph [G] built in [main]. *)
Definition main_graph : nx.Graph :=
  nx.add_edge "Hospital" "Clinic"
    (nx.add_edge "Doctor" "Nurse"
      (nx.add_edge "Doctor" "Patient B"
        (nx.add_edge "Doctor" "Patient A"
          (nx.add_edge "Hospital" "Doctor" nx.empty)))).

End agent_final.

(** ** Method calls on the heap

    [x.act(prompt)] runs the method of the class of [x].  A call that needs
    the weather service carries what the service answers at that call. *)

Inductive script := agent_py | agent_final_py.

Definition act (s : script) (client : agent_final.weather_client)
    (self : ref) (prompt : string) : M string :=
  o ← load self;
  match fields o, s with
  | IsAgent, _ => Agent_act self prompt
  | IsAssistantAgent _, agent_py => agent.AssistantAgent_act self prompt
  | IsAssistantAgent _, agent_final_py =>
      agent_final.AssistantAgent_act client self prompt
  | IsKnowledgeGraphAgent _, _ => agent_final.KnowledgeGraphAgent_act self prompt
  end.

Inductive call :=
  | call_act (client : agent_final.weather_client) (self : ref)
      (prompt : string)
  | call_get_weather_info (client : agent_final.weather_client) (self : ref)
      (city : string)
  | call_send_message (self recipient : ref) (message : string).

(** The world a call leaves, whether it returns or raises. *)
Definition exec (s : script) (c : call) (w : world) : world :=
  match c with
  | call_act client self prompt => (act s client self prompt w).2
  | call_get_weather_info client self city =>
      match s with
      | agent_py => w
      | agent_final_py => (agent_final.get_weather_info client self city w).2
      end
  | call_send_message self recipient message =>
      (send_message self recipient message w).2
  end.

Definition run (s : script) (calls : list call) (w : world) : world :=
  foldl (λ w c, exec s c w) w calls.

(** The message a call puts in the inbox of [r], if any: a [send_message]
    addressed to [r] by a live sender. *)
Definition delivers (h : gmap ref Agent) (r : ref) (c : call) : option string :=
  match c with
  | call_send_message self recipient message =>
      if decide (recipient = r ∧ is_Some (h !! self)) then Some message
      else None
  | _ => None
  end.

(** The constructor of [AssistantAgent] in each script. *)
Definition AssistantAgent_init (s : script) (name role : string) : M ref :=
  match s with
  | agent_py => agent.AssistantAgent_init name role
  | agent_final_py => agent_final.AssistantAgent_init name role
  end.

Definition knowledge_base_of (s : script) (name : string) : gmap string string :=
  match s with
  | agent_py => agent.knowledge_base name
  | agent_final_py => agent_final.knowledge_base name
  end.

(** ** Vocabulary of the statements *)

(** [sub] occurs in [s]. *)
Definition substring (sub s : string) : Prop :=
  ∃ pre post, s = pre +:+ sub +:+ post.

(** The world after some lines were printed and nothing else changed. *)
Definition printed (w : world) (lines : list string) : world :=
  World (heap w) (stdout w ++ lines).

(** The query format of the docstring of [KnowledgeGraphAgent.act]. *)
Definition documented_query (node : string) : string :=
  "Who is connected to " +:+ node +:+ "?".

Definition does_not_exist (target : string) : string :=
  "The node '" +:+ target +:+ "' does not exist in the graph.".

Definition received_query (o : Agent) (query : string) : string :=
  nl +:+ "Knowledge Graph Agent " +:+ name o +:+ " received query: '"
     +:+ query +:+ "'".

(** A computation that never writes to the heap. *)
Definition heap_preserving {A} (m : M A) : Prop :=
  ∀ w, heap (m w).2 = heap w.

(** The recipient after [message] was appended to its inbox. *)
Definition deliver (messages : list string) (o : Agent) : Agent :=
  mkAgent (name o) (role o) (message_inbox o ++ messages) (fields o).

Definition sending_line (s r : Agent) (message : string) : string :=
  "Agent " +:+ name s +:+ " is sending a message to " +:+ name r
    +:+ ": '" +:+ message +:+ "'".

(** ** Objects and services of the demonstrations *)

Definition alice : Agent := mkAgent "Alice" "coordinator" [] IsAgent.
Definition bob : Agent := mkAgent "Bob" "analyst" [] IsAgent.

(** [AssistantAgent("Cody")] of [agent.py] and of [agent_final.py]. *)
Definition cody : Agent :=
  mkAgent "Cody" "assistant" [] (IsAssistantAgent (agent.knowledge_base "Cody")).
Definition cody_final : Agent :=
  mkAgent "Cody" "assistant" []
          (IsAssistantAgent (agent_final.knowledge_base "Cody")).

(** [KnowledgeGraphAgent("GraphBot", graph=G)]. *)
Definition graph_bot : Agent :=
  mkAgent "GraphBot" "graph_query_agent" []
          (IsKnowledgeGraphAgent agent_final.main_graph).

(** A graph with a capitalised node and its lowercase namesake. *)
Definition two_doctors : nx.Graph := nx.add_edge "Doctor" "doctor" nx.empty.
Definition doctor_bot : Agent :=
  mkAgent "GraphBot" "graph_query_agent" [] (IsKnowledgeGraphAgent two_doctors).

Definition demo_world : world :=
  World (<[0 := alice]> (<[1 := bob]> (<[2 := cody]> (<[3 := cody_final]>
           (<[4 := graph_bot]> (<[5 := doctor_bot]> ∅)))))) [].

(** The weather service answering, failing, and interrupted by Ctrl-C
    ([KeyboardInterrupt] derives from [BaseException] only). *)
Definition sunny : agent_final.weather_client :=
  λ _, agent_final.Forecast 27 "Sunny".
Definition offline : agent_final.weather_client :=
  λ _, agent_final.ClientRaises (Exn true "Cannot connect to host").
Definition interrupted : agent_final.weather_client :=
  λ _, agent_final.ClientRaises (Exn false "").

(** ** Vocabulary of the further statements *)

(** Every character of [s] satisfies [p]. *)
Fixpoint all_chars (p : ascii → bool) (s : string) : bool :=
  match s with
  | EmptyString => true
  | String c s' => p c && all_chars p s'
  end.

(** The answer of [KnowledgeGraphAgent.act] for a node with the given
    neighbours. *)
Definition connections (target : string) (neighbors : list string) : string :=
  match neighbors with
  | [] => "'" +:+ target +:+ "' has no connections in the graph."
  | _ => "The following are connected to '" +:+ target +:+ "': "
           +:+ Py.join ", " neighbors +:+ "."
  end.

Definition graph_responding (o : Agent) (response : string) : string :=
  "Knowledge Graph Agent " +:+ name o +:+ " responding: '" +:+ response +:+ "'".

(** The two lines of [print_exchange]. *)
Definition exchange (o : Agent) (prompt response : string) : list string :=
  ["Assistant Agent " +:+ name o +:+ " received prompt: '" +:+ prompt +:+ "'";
   "Assistant Agent " +:+ name o +:+ " responding: '" +:+ response +:+ "'"].

(** [main] of both scripts up to the first message: two agents are built,
    the first sends [message] to the second. *)
Definition introduce (name1 role1 name2 role2 message : string)
  : M (ref * ref) :=
  agent_a ← Agent_init name1 role1;
  agent_b ← Agent_init name2 role2;
  send_message agent_a agent_b message;;
  mret (agent_a, agent_b).

(** A graph with a capitalised node and a lowercase one. *)
Definition mixed_graph : nx.Graph := nx.add_edge "Doctor" "nurse" nx.empty.
Definition mixed_bot : Agent :=
  mkAgent "GraphBot" "graph_query_agent" [] (IsKnowledgeGraphAgent mixed_graph).
Definition mixed_world : world := World (<[0 := mixed_bot]> ∅) [].

Example lower_hello : Py.lower "Hello" = "hello".
Proof. reflexivity. Qed.

Example strip_spaces : Py.strip "  help " = "help".
Proof. reflexivity. Qed.

Example split_query :
  Py.split "to " "who is connected to doctor?" = ["who is connected "; "doctor?"].
Proof. reflexivity. Qed.

Example split_twice : Py.split "to " "a to b to " = ["a "; "b "; ""].
Proof. reflexivity. Qed.

Example split_overlap : Py.split "to " "toto to" = ["to"; "to"].
Proof. reflexivity. Qed.

Example strip_chars_query : Py.strip_chars "? " "  ?? a ? b ?? " = "a ? b".
Proof. reflexivity. Qed.

Example str_of_int_neg : Py.str_of_int (-12) = "-12".
Proof. reflexivity. Qed.

(** ** Facts about the string primitives *)

Section py_facts.

Implicit Types (s sep sub pre post : string) (c : ascii).

Lemma append_nil s : "" +:+ s = s.
Proof. reflexivity. Qed.

Lemma append_cons c s1 s2 : String c s1 +:+ s2 = String c (s1 +:+ s2).
Proof. reflexivity. Qed.

Lemma app_assoc_string s1 s2 s3 : (s1 +:+ s2) +:+ s3 = s1 +:+ s2 +:+ s3.
Proof.
  induction s1 as [|c s1 IH]; [done|]. rewrite !append_cons. by f_equal.
Qed.

Lemma app_length_string s1 s2 :
  String.length (s1 +:+ s2) = String.length s1 + String.length s2.
Proof.
  induction s1 as [|c s1 IH]; [done|]. rewrite append_cons. simpl. by f_equal.
Qed.

Lemma lower_char_idemp c : Py.lower_char (Py.lower_char c) = Py.lower_char c.
Proof. destruct c as [[] [] [] [] [] [] [] []]; reflexivity. Qed.

Lemma lower_idemp s : Py.lower (Py.lower s) = Py.lower s.
Proof.
  induction s as [|c s IH]; simpl; [done|].
  by rewrite lower_char_idemp, IH.
Qed.

Lemma has_upper_false s : Py.has_upper s = false ↔ Py.lower s = s.
Proof.
  induction s as [|c s IH]; simpl; [done|].
  unfold Py.isupper_char. rewrite orb_false_iff, IH.
  rewrite bool_decide_eq_false. split.
  - intros [Hc ->]. f_equal. by destruct (decide (Py.lower_char c = c)).
  - intros [= Hc Hs]. split; [by intros [] | done].
Qed.

Lemma has_upper_lower s : Py.has_upper (Py.lower s) = false.
Proof. apply has_upper_false, lower_idemp. Qed.

Lemma has_upper_app s1 s2 :
  Py.has_upper (s1 +:+ s2) = Py.has_upper s1 || Py.has_upper s2.
Proof.
  induction s1 as [|c s1 IH]; [done|].
  rewrite append_cons. simpl. by rewrite IH, orb_assoc.
Qed.

(** [strip_prefix] recognises exactly the strings that start with [p]. *)
Lemma strip_prefix_Some p s rest :
  Py.strip_prefix p s = Some rest ↔ s = p +:+ rest.
Proof.
  revert s. induction p as [|a p IH]; intros s; simpl.
  - rewrite append_nil. split; congruence.
  - rewrite append_cons. destruct s as [|b s]; [done|].
    destruct (decide (a = b)) as [->|Hne].
    + rewrite IH. split; congruence.
    + split; [done | congruence].
Qed.

Lemma find_Some sep s before after :
  Py.find sep s = Some (before, after) → s = before +:+ sep +:+ after.
Proof.
  revert before. induction s as [|c s IH]; intros before; simpl.
  - destruct (Py.strip_prefix sep "") as [rest|] eqn:Hp; [|done].
    intros [= <- <-]. rewrite append_nil. by apply strip_prefix_Some.
  - destruct (Py.strip_prefix sep (String c s)) as [rest|] eqn:Hp.
    + intros [= <- <-]. rewrite append_nil. by apply strip_prefix_Some.
    + destruct (Py.find sep s) as [[b a]|]; [|done].
      intros [= <- <-]. rewrite append_cons. f_equal. by apply IH.
Qed.

(** [find] misses only when [sep] occurs nowhere. *)
Lemma find_None sep s :
  Py.find sep s = None ↔ ∀ pre post, s ≠ pre +:+ sep +:+ post.
Proof.
  split.
  - induction s as [|c s IH]; simpl.
    + destruct (Py.strip_prefix sep "") as [rest|] eqn:Hp; [done|].
      intros _ [|c pre] post Heq; [|done]. rewrite append_nil in Heq.
      apply strip_prefix_Some in Heq. congruence.
    + destruct (Py.strip_prefix sep (String c s)) as [rest|] eqn:Hp; [done|].
      destruct (Py.find sep s) as [[b a]|] eqn:Hf; [done|].
      intros _ [|d pre] post Heq.
      * rewrite append_nil in Heq. apply strip_prefix_Some in Heq. congruence.
      * rewrite append_cons in Heq. injection Heq as -> Heq. by eapply IH.
  - intros Hno. destruct (Py.find sep s) as [[b a]|] eqn:Hf; [|done].
    apply find_Some in Hf. by destruct (Hno b a).
Qed.

Lemma find_shorter sep s before after :
  sep ≠ "" → Py.find sep s = Some (before, after) →
  String.length after < String.length s.
Proof.
  intros Hsep Hf%find_Some. subst s.
  rewrite !app_length_string. destruct sep; [done|]. simpl. lia.
Qed.

(** The fuel of [split] is enough: more fuel gives the same pieces. *)
Lemma split_fuel_enough sep s fuel :
  sep ≠ "" → String.length s < fuel →
  Py.split_fuel fuel sep s = Py.split sep s.
Proof.
  intros Hsep. unfold Py.split.
  remember (String.length s) as n eqn:Hn.
  revert s fuel Hn. induction (lt_wf n) as [n _ IH]; intros s fuel -> Hlt.
  destruct fuel as [|fuel]; [lia|]. simpl.
  destruct (Py.find sep s) as [[b a]|] eqn:Hf; [|done].
  pose proof (find_shorter _ _ _ _ Hsep Hf) as Hlen.
  f_equal. rewrite (IH (String.length a) Hlen a fuel eq_refl) by lia.
  symmetry. by apply (IH (String.length a) Hlen a).
Qed.

(** [split] as Python defines it: cut at the leftmost separator, split
    the rest. *)
Lemma split_unfold sep s :
  sep ≠ "" →
  Py.split sep s =
    match Py.find sep s with
    | None => [s]
    | Some (before, after) => before :: Py.split sep after
    end.
Proof.
  intros Hsep. unfold Py.split at 1. simpl.
  destruct (Py.find sep s) as [[b a]|] eqn:Hf; [|done].
  f_equal. apply split_fuel_enough; [done|]. by eapply find_shorter.
Qed.

Lemma split_nonempty sep s : Py.split sep s ≠ [].
Proof.
  unfold Py.split. simpl. by destruct (Py.find sep s) as [[??]|].
Qed.

Lemma has_upper_lstrip chars s :
  Py.has_upper s = false → Py.has_upper (Py.lstrip chars s) = false.
Proof.
  induction s as [|c s IH]; simpl; [done|].
  intros [Hc Hs]%orb_false_iff. destruct (chars c); [by apply IH|].
  simpl. by rewrite Hc, Hs.
Qed.

Lemma has_upper_rstrip chars s :
  Py.has_upper s = false → Py.has_upper (Py.rstrip chars s) = false.
Proof.
  induction s as [|c s IH]; simpl; [done|].
  intros [Hc Hs]%orb_false_iff. specialize (IH Hs).
  destruct (Py.rstrip chars s) as [|d r].
  - destruct (chars c); simpl; [done | by rewrite Hc].
  - simpl in *. by rewrite Hc, IH.
Qed.

Lemma has_upper_split sep s :
  sep ≠ "" → Py.has_upper s = false →
  Forall (λ part, Py.has_upper part = false) (Py.split sep s).
Proof.
  intros Hsep. remember (String.length s) as n eqn:Hn.
  revert s Hn. induction (lt_wf n) as [n _ IH]; intros s -> Hs.
  rewrite split_unfold by done.
  destruct (Py.find sep s) as [[b a]|] eqn:Hf; [|by constructor].
  pose proof (find_shorter _ _ _ _ Hsep Hf) as Hlen.
  apply find_Some in Hf. subst s.
  rewrite !has_upper_app, !orb_false_iff in Hs. destruct Hs as (Hb & _ & Ha).
  constructor; [done|]. by eapply IH.
Qed.

End py_facts.

(** ** Running the monad *)

Ltac run_M :=
  unfold mbind, M_bind, mret, M_ret, print, raise, load, printed in *;
  simpl in *.

Lemma contains_substring sub s : Py.contains sub s = true ↔ substring sub s.
Proof.
  unfold Py.contains, substring. split.
  - destruct (Py.find sub s) as [[b a]|] eqn:Hf; [|done].
    intros _. exists b, a. by apply find_Some.
  - intros (pre & post & Hs).
    destruct (Py.find sub s) as [[b a]|] eqn:Hf; [done|].
    by destruct (proj1 (find_None sub s) Hf pre post).
Qed.

Lemma contains_not_substring sub s :
  Py.contains sub s = false ↔ ¬ substring sub s.
Proof.
  rewrite <- contains_substring. by destruct (Py.contains sub s).
Qed.

(** ** Parsing a graph query *)

Lemma target_node_None query :
  agent_final.target_node query = None ↔ ¬ substring "to " (Py.lower query).
Proof.
  unfold agent_final.target_node. rewrite split_unfold by done.
  rewrite <- contains_not_substring. unfold Py.contains.
  destruct (Py.find "to " (Py.lower query)) as [[b a]|]; [|done].
  pose proof (split_nonempty "to " a).
  by destruct (Py.split "to " a).
Qed.

Lemma target_node_is_Some query :
  substring "to " (Py.lower query) → is_Some (agent_final.target_node query).
Proof.
  intros Hsub. destruct (agent_final.target_node query) eqn:Ht; [by eexists|].
  by apply target_node_None in Ht.
Qed.

(** The parsed target holds no uppercase letter. *)
Lemma target_node_lowercase query target :
  agent_final.target_node query = Some target → Py.has_upper target = false.
Proof.
  unfold agent_final.target_node.
  pose proof (has_upper_split "to " (Py.lower query) ltac:(done)
                (has_upper_lower query)) as Hall.
  destruct (Py.split "to " (Py.lower query)) as [|part0 [|part1 parts]]; [done..|].
  intros [= <-]. apply Forall_cons in Hall as [_ [Hp _]%Forall_cons].
  unfold Py.strip_chars. by apply has_upper_rstrip, has_upper_lstrip.
Qed.

(** ** The class [Agent] *)

(** C7. For every prompt, the base [Agent.act] returns (and prints) a string
    fixed by the agent's name, role and the prompt: the "is acting on prompt"
    sentence when the prompt is not empty, the "is performing a generic
    action" sentence when it is. *)
Theorem C7_Agent_act_canned (w : world) (self : ref) (o : Agent)
    (prompt : string) :
  heap w !! self = Some o →
  (prompt ≠ "" →
   let response := "Agent " +:+ name o +:+ " (" +:+ role o
                     +:+ ") is acting on prompt: '" +:+ prompt +:+ "'." in
   Agent_act self prompt w = (Return response, printed w [response])) ∧
  (prompt = "" →
   let response := "Agent " +:+ name o +:+ " (" +:+ role o
                     +:+ ") is performing a generic action." in
   Agent_act self prompt w = (Return response, printed w [response])).
Proof.
  intros Hself. unfold Agent_act. run_M. rewrite Hself.
  split; intros Hp; by destruct prompt.
Qed.

(** ** [KnowledgeGraphAgent.act] *)

Lemma has_node_false g n : nx.has_node g n = false ↔ n ∉ nx.nodes g.
Proof. unfold nx.has_node. apply bool_decide_eq_false. Qed.

(** The reply for a parsed target that is not a node; nothing but the
    standard output changes. *)
Lemma KnowledgeGraphAgent_act_absent w self o g query target :
  heap w !! self = Some o →
  fields o = IsKnowledgeGraphAgent g →
  agent_final.target_node query = Some target →
  target ∉ nx.nodes g →
  agent_final.KnowledgeGraphAgent_act self query w =
    (Return (does_not_exist target), printed w [received_query o query]).
Proof.
  intros Hself Hg Ht Habs%has_node_false.
  unfold agent_final.KnowledgeGraphAgent_act, get_graph. run_M.
  by rewrite Hself, Ht, Hg; simpl; rewrite Habs.
Qed.

(** C10. For every query without the substring "to " after lowercasing,
    [KnowledgeGraphAgent.act] returns the fixed "Query format not understood"
    message; it does so whatever the receiver holds (the graph is not read)
    and changes nothing but the standard output. *)
Theorem C10_malformed_query (w : world) (self : ref) (o : Agent)
    (query : string) :
  heap w !! self = Some o →
  ¬ substring "to " (Py.lower query) →
  agent_final.KnowledgeGraphAgent_act self query w =
    (Return "Query format not understood. Please use 'Who is connected to [Node Name]?''",
     printed w [received_query o query]).
Proof.
  intros Hself Hq%target_node_None.
  unfold agent_final.KnowledgeGraphAgent_act. run_M.
  by rewrite Hself, Hq.
Qed.

(** C3. For every query with the substring "to " after lowercasing, a target
    node is parsed, and when it is not a node of the agent's graph
    [KnowledgeGraphAgent.act] returns the "does not exist" message for it
    and leaves the heap, hence the graph, as it was. *)
Theorem C3_absent_node (w : world) (self : ref) (o : Agent) (g : nx.Graph)
    (query : string) :
  heap w !! self = Some o →
  fields o = IsKnowledgeGraphAgent g →
  substring "to " (Py.lower query) →
  ∃ target,
    agent_final.target_node query = Some target ∧
    (target ∉ nx.nodes g →
     agent_final.KnowledgeGraphAgent_act self query w =
       (Return ("The node '" +:+ target +:+ "' does not exist in the graph."),
        printed w [received_query o query])).
Proof.
  intros Hself Hg [target Ht]%target_node_is_Some.
  exists target. split; [done|]. intros Habs.
  by apply (KnowledgeGraphAgent_act_absent w self o g).
Qed.

(** A node with an uppercase letter is never the parsed target. *)
Lemma target_node_not_upper query target node :
  agent_final.target_node query = Some target →
  Py.has_upper node = true → target ≠ node.
Proof.
  intros Ht%target_node_lowercase Hn ->. congruence.
Qed.

(** ** What the methods leave untouched *)

Create HintDb frame.

Lemma hp_ret {A} (a : A) : heap_preserving (mret a).
Proof. by intros w. Qed.

Lemma hp_raise {A} (e : exn) : heap_preserving (raise (A := A) e).
Proof. by intros w. Qed.

Lemma hp_print line : heap_preserving (print line).
Proof. by intros w. Qed.

Lemma hp_load r : heap_preserving (load r).
Proof. intros w. unfold load. by destruct (heap w !! r). Qed.

Lemma hp_bind {A B} (m : M A) (f : A → M B) :
  heap_preserving m → (∀ a, heap_preserving (f a)) →
  heap_preserving (m ≫= f).
Proof.
  intros Hm Hf w. unfold mbind, M_bind. specialize (Hm w).
  destruct (m w) as [[a|e] w1]; simpl in *; [|done].
  by rewrite Hf.
Qed.

Lemma hp_try {A} (body : M A) (handler : exn → M A) :
  heap_preserving body → (∀ e, heap_preserving (handler e)) →
  heap_preserving (try_except_Exception body handler).
Proof.
  intros Hb Hh w. unfold try_except_Exception. specialize (Hb w).
  destruct (body w) as [[a|e] w1]; simpl in *; [done|].
  destruct (is_Exception e); simpl; [by rewrite Hh | done].
Qed.

#[local] Hint Resolve hp_ret hp_raise hp_print hp_load hp_try : frame.
#[local] Hint Extern 2 (heap_preserving (_ ≫= _)) =>
  apply hp_bind; [|intros ?] : frame.

Lemma hp_get_knowledge_base o : heap_preserving (get_knowledge_base o).
Proof. unfold get_knowledge_base. destruct (fields o); auto with frame. Qed.

Lemma hp_get_graph o : heap_preserving (get_graph o).
Proof. unfold get_graph. destruct (fields o); auto with frame. Qed.

Lemma hp_print_exchange o prompt response :
  heap_preserving (print_exchange o prompt response).
Proof. unfold print_exchange. auto with frame. Qed.

#[local] Hint Resolve hp_get_knowledge_base hp_get_graph hp_print_exchange
  : frame.

Lemma hp_Agent_act self prompt : heap_preserving (Agent_act self prompt).
Proof. unfold Agent_act. auto 6 with frame. Qed.

Lemma hp_agent_AssistantAgent_act self prompt :
  heap_preserving (agent.AssistantAgent_act self prompt).
Proof. unfold agent.AssistantAgent_act. auto 8 with frame. Qed.

Lemma hp_get_weather_info client self city :
  heap_preserving (agent_final.get_weather_info client self city).
Proof.
  unfold agent_final.get_weather_info, agent_final.await_get.
  apply hp_try; [|auto with frame].
  apply hp_bind; [destruct (client city); auto with frame|].
  intros [t d]. auto with frame.
Qed.

Lemma hp_agent_final_AssistantAgent_act client self prompt :
  heap_preserving (agent_final.AssistantAgent_act client self prompt).
Proof.
  unfold agent_final.AssistantAgent_act.
  apply hp_bind; [auto with frame|]. intros o.
  destruct (Py.contains _ _); auto 8 using hp_get_weather_info with frame.
Qed.

Lemma hp_KnowledgeGraphAgent_act self query :
  heap_preserving (agent_final.KnowledgeGraphAgent_act self query).
Proof.
  unfold agent_final.KnowledgeGraphAgent_act.
  apply hp_bind; [auto with frame|]. intros o.
  apply hp_bind; [auto with frame|]. intros _.
  destruct (agent_final.target_node query) as [target|]; [|auto with frame].
  apply hp_bind; [auto with frame|]. intros g.
  destruct (negb _); [auto with frame|].
  destruct (nx.neighbors g target); auto 6 with frame.
Qed.

Lemma hp_act s client self prompt : heap_preserving (act s client self prompt).
Proof.
  unfold act. apply hp_bind; [auto with frame|]. intros o.
  destruct (fields o), s;
    auto using hp_Agent_act, hp_agent_AssistantAgent_act,
      hp_agent_final_AssistantAgent_act, hp_KnowledgeGraphAgent_act.
Qed.

(** ** [send_message] *)

Lemma send_message_live w self recipient s r message :
  heap w !! self = Some s → heap w !! recipient = Some r →
  send_message self recipient message w =
    (Return (),
     World (<[recipient := deliver [message] r]> (heap w))
           (stdout w ++ [sending_line s r message])).
Proof.
  intros Hs Hr. unfold send_message, inbox_append. run_M.
  by rewrite Hs, Hr; simpl; rewrite Hr.
Qed.

Lemma send_message_dangling w self recipient message :
  heap w !! self = None ∨ heap w !! recipient = None →
  send_message self recipient message w = (Raise dangling, w).
Proof.
  intros Hnone. unfold send_message. run_M.
  destruct (heap w !! self) as [s|]; [|done].
  destruct Hnone as [|Hr]; [done|]. by rewrite Hr.
Qed.

(** ** Sequences of calls *)

Lemma deliver_nil o : deliver [] o = o.
Proof. destruct o. unfold deliver. simpl. by rewrite app_nil_r. Qed.

Lemma deliver_app ms1 ms2 o : deliver ms2 (deliver ms1 o) = deliver (ms1 ++ ms2) o.
Proof. unfold deliver. simpl. by rewrite app_assoc. Qed.

(** One call: every live object stays live, keeps its name, role and
    subclass attributes, and gains the message the call delivers to it. *)
Lemma exec_frame s c w r o :
  heap w !! r = Some o →
  heap (exec s c w) !! r = Some (deliver (option_list (delivers (heap w) r c)) o).
Proof.
  intros Hr. destruct c as [client self prompt|client self city|self rcpt m];
    simpl.
  - by rewrite hp_act, deliver_nil.
  - destruct s; [|rewrite hp_get_weather_info]; by rewrite deliver_nil.
  - destruct (heap w !! self) as [so|] eqn:Hs;
      [destruct (heap w !! rcpt) as [ro|] eqn:Hrc|].
    + rewrite (send_message_live w self rcpt so ro) by done. simpl.
      destruct (decide (rcpt = r)) as [->|Hne].
      * rewrite lookup_insert_eq, decide_True by eauto.
        simpl. congruence.
      * rewrite lookup_insert_ne by done.
        rewrite decide_False by (by intros [? _]).
        by rewrite deliver_nil.
    + rewrite send_message_dangling by auto.
      rewrite decide_False; [by rewrite deliver_nil|].
      intros [-> _]. congruence.
    + rewrite send_message_dangling by auto.
      rewrite decide_False; [by rewrite deliver_nil|].
      intros [_ [? ?]]. congruence.
Qed.

Lemma exec_live s c w r :
  is_Some (heap (exec s c w) !! r) ↔ is_Some (heap w !! r).
Proof.
  split.
  - destruct (heap w !! r) as [o|] eqn:Hr; [eauto|].
    destruct c as [client self prompt|client self city|self rcpt m];
      simpl.
    + by rewrite hp_act, Hr.
    + destruct s; [|rewrite hp_get_weather_info]; by rewrite Hr.
    + destruct (heap w !! self) as [so|] eqn:Hs;
        [destruct (heap w !! rcpt) as [ro|] eqn:Hrc|].
      * rewrite (send_message_live w self rcpt so ro) by done. simpl.
        rewrite lookup_insert_ne by congruence. by rewrite Hr.
      * rewrite send_message_dangling by auto. simpl. by rewrite Hr.
      * rewrite send_message_dangling by auto. simpl. by rewrite Hr.
  - intros [o Hr]. erewrite exec_frame by done. eauto.
Qed.

Lemma delivers_live h1 h2 r c :
  (∀ x, is_Some (h1 !! x) ↔ is_Some (h2 !! x)) →
  delivers h1 r c = delivers h2 r c.
Proof.
  intros Hlive. destruct c as [| |self rcpt m]; simpl; [done..|].
  destruct (decide (rcpt = r ∧ is_Some (h1 !! self))) as [H1|H1];
    destruct (decide (rcpt = r ∧ is_Some (h2 !! self))) as [H2|H2];
    try done.
  - destruct H2, H1 as [? H1]. split; [done | by apply Hlive].
  - destruct H1, H2 as [? H2]. split; [done | by apply Hlive].
Qed.

Lemma omap_cons_list {A B} (f : A → option B) (x : A) (l : list A) :
  omap f (x :: l) = option_list (f x) ++ omap f l.
Proof. simpl. by destruct (f x). Qed.

Lemma omap_delivers_live h1 h2 r (calls : list call) :
  (∀ x, is_Some (h1 !! x) ↔ is_Some (h2 !! x)) →
  omap (delivers h1 r) calls = omap (delivers h2 r) calls.
Proof.
  intros Hlive. induction calls as [|c calls IH]; [done|].
  by rewrite !omap_cons_list, (delivers_live h1 h2 r c Hlive), IH.
Qed.

(** Any sequence of calls: the object at [r] keeps its name, role and
    subclass attributes, and its inbox grows by exactly the messages sent
    to it, in the order of the calls. *)
Lemma run_frame s calls w r o :
  heap w !! r = Some o →
  heap (run s calls w) !! r =
    Some (deliver (omap (delivers (heap w) r) calls) o).
Proof.
  revert w o. induction calls as [|c calls IH]; intros w o Hr.
  - simpl. by rewrite deliver_nil.
  - unfold run in *. rewrite omap_cons_list. simpl.
    rewrite (IH _ _ (exec_frame s c w r o Hr)), deliver_app.
    by rewrite (omap_delivers_live (heap (exec s c w)) (heap w))
      by (intros; apply exec_live).
Qed.

(** ** Messages *)

Lemma omap_delivers_sends h self r (messages : list string) :
  is_Some (h !! self) →
  omap (delivers h r) (call_send_message self r <$> messages) = messages.
Proof.
  intros Hs. induction messages as [|m messages IH]; [done|].
  rewrite fmap_cons, omap_cons_list, IH. simpl.
  by rewrite decide_True.
Qed.

(** A message sent to oneself lands in the sender's own inbox. *)
Lemma C5_self_send_changes_sender_inbox :
  heap demo_world !! 0 = Some alice ∧
  message_inbox alice = [] ∧
  message_inbox <$> heap (send_message 0 0 "Remember the report." demo_world).2 !! 0
    = Some ["Remember the report."].
Proof. by vm_compute. Qed.

(** C5, amended.  For every sender, recipient and message, [send_message]
    returns after appending the message to the end of the recipient's inbox,
    the earlier messages kept in order and the recipient's name, role and
    other attributes unchanged; a sender that is not the recipient is left
    unchanged; and sending a list of messages one after the other leaves
    them at the end of the inbox in the order they were sent. *)
Theorem C5_send_message_appends (w : world) (self recipient : ref)
    (s r : Agent) (message : string) :
  heap w !! self = Some s →
  heap w !! recipient = Some r →
  (send_message self recipient message w).1 = Return () ∧
  heap (send_message self recipient message w).2 !! recipient =
    Some (mkAgent (name r) (role r) (message_inbox r ++ [message]) (fields r)) ∧
  (self ≠ recipient →
   heap (send_message self recipient message w).2 !! self = Some s) ∧
  (∀ script messages,
     heap (run script (call_send_message self recipient <$> messages) w)
       !! recipient =
     Some (mkAgent (name r) (role r) (message_inbox r ++ messages) (fields r))).
Proof.
  intros Hs Hr. rewrite (send_message_live w self recipient s r) by done.
  simpl. repeat split.
  - by rewrite lookup_insert_eq.
  - intros Hne. by rewrite lookup_insert_ne.
  - intros script messages.
    rewrite (run_frame script _ w recipient r Hr).
    by rewrite omap_delivers_sends by eauto.
Qed.

Lemma C5_send_message_witness :
  (send_message 0 1 "Please prepare the weekly report." demo_world).1
    = Return () ∧
  heap (send_message 0 1 "Please prepare the weekly report." demo_world).2 !! 1
    = Some (mkAgent "Bob" "analyst" ["Please prepare the weekly report."]
                    IsAgent).
Proof.
  pose proof (C5_send_message_appends demo_world 0 1 alice bob
                "Please prepare the weekly report." eq_refl eq_refl)
    as (Hret & Hinbox & _).
  split; [exact Hret | exact Hinbox].
Defined.

(** ** The knowledge base is fixed *)

(** C8. For every [AssistantAgent] of either script and every sequence of
    calls to [act], [get_weather_info] and [send_message] on any objects, the
    agent has after the calls the name, the role and the knowledge base it
    was constructed with; its inbox holds exactly the messages that
    [send_message] calls addressed to it, in order. *)
Theorem C8_knowledge_base_fixed (s : script) (name0 role0 : string)
    (w0 : world) (calls : list call) :
  ∃ r w,
    AssistantAgent_init s name0 role0 w0 = (Return r, w) ∧
    heap (run s calls w) !! r =
      Some (mkAgent name0 role0 (omap (delivers (heap w) r) calls)
                    (IsAssistantAgent (knowledge_base_of s name0))).
Proof.
  pose (o := mkAgent name0 role0 [] (IsAssistantAgent (knowledge_base_of s name0))).
  destruct s; (eexists _, _; split; [reflexivity|]);
    by rewrite (run_frame _ _ _ _ o) by apply lookup_insert_eq.
Qed.

(** ** The graph of [main] *)

(** C9. The graph built in [main] has the five edges Hospital-Doctor,
    Doctor-Patient A, Doctor-Patient B, Doctor-Nurse and Hospital-Clinic and
    no other, and six nodes; [KnowledgeGraphAgent.act] never writes to the
    heap, and after any sequence of calls the agent built on that graph
    still holds it. *)
Theorem C9_main_graph_fixed :
  nx.edges agent_final.main_graph ≡ₚ
    [("Hospital", "Doctor"); ("Doctor", "Patient A"); ("Doctor", "Patient B");
     ("Doctor", "Nurse"); ("Hospital", "Clinic")] ∧
  length (nx.edges agent_final.main_graph) = 5 ∧
  nx.nodes agent_final.main_graph =
    ["Hospital"; "Doctor"; "Patient A"; "Patient B"; "Nurse"; "Clinic"] ∧
  length (nx.nodes agent_final.main_graph) = 6 ∧
  (∀ w self query,
     heap (agent_final.KnowledgeGraphAgent_act self query w).2 = heap w) ∧
  (∀ s calls w r o,
     heap w !! r = Some o →
     fields o = IsKnowledgeGraphAgent agent_final.main_graph →
     fields <$> heap (run s calls w) !! r =
       Some (IsKnowledgeGraphAgent agent_final.main_graph)).
Proof.
  split; [|split; [reflexivity|split; [reflexivity|split; [reflexivity|split]]]].
  - change (nx.edges agent_final.main_graph)
      with [("Hospital", "Doctor"); ("Hospital", "Clinic");
            ("Doctor", "Patient A"); ("Doctor", "Patient B");
            ("Doctor", "Nurse")].
    apply perm_skip.
    exact (Permutation_cons_append
             [("Doctor", "Patient A"); ("Doctor", "Patient B");
              ("Doctor", "Nurse")] ("Hospital", "Clinic")).
  - intros w self query. apply hp_KnowledgeGraphAgent_act.
  - intros s calls w r o Hr Hg.
    rewrite (run_frame s calls w r o Hr). simpl. by rewrite Hg.
Qed.

Lemma C9_main_graph_witness :
  fields <$> heap (run agent_final_py
                     [call_act sunny 4 (documented_query "Doctor");
                      call_act sunny 4 (documented_query "Hospital");
                      call_act sunny 4 (documented_query "Janitor")]
                     demo_world) !! 4
    = Some (IsKnowledgeGraphAgent agent_final.main_graph).
Proof.
  destruct C9_main_graph_fixed as (_ & _ & _ & _ & _ & Hrun).
  exact (Hrun agent_final_py _ demo_world 4 graph_bot eq_refl eq_refl).
Defined.

(** ** [AssistantAgent] *)

(** What [AssistantAgent.act] of [agent.py] does on an assistant. *)
Lemma agent_AssistantAgent_act_spec w self o kb prompt :
  heap w !! self = Some o →
  fields o = IsAssistantAgent kb →
  let response := default fallback (kb !! normalize prompt) in
  agent.AssistantAgent_act self prompt w =
    (Return response,
     printed w ["Assistant Agent " +:+ name o +:+ " received prompt: '"
                  +:+ prompt +:+ "'";
                "Assistant Agent " +:+ name o +:+ " responding: '"
                  +:+ response +:+ "'"]).
Proof.
  intros Hself Hkb. unfold agent.AssistantAgent_act, get_knowledge_base,
    print_exchange. run_M. rewrite Hself, Hkb. simpl.
  by rewrite <- app_assoc.
Qed.

(** The dictionary branch of [AssistantAgent.act] of [agent_final.py]. *)
Lemma agent_final_AssistantAgent_act_lookup client w self o kb prompt :
  heap w !! self = Some o →
  fields o = IsAssistantAgent kb →
  Py.contains "weather" (normalize prompt) = false →
  let response := default fallback (kb !! normalize prompt) in
  agent_final.AssistantAgent_act client self prompt w =
    (Return response,
     printed w ["Assistant Agent " +:+ name o +:+ " received prompt: '"
                  +:+ prompt +:+ "'";
                "Assistant Agent " +:+ name o +:+ " responding: '"
                  +:+ response +:+ "'"]).
Proof.
  intros Hself Hkb Hno. unfold agent_final.AssistantAgent_act,
    get_knowledge_base, print_exchange. run_M. rewrite Hself, Hno, Hkb. simpl.
  by rewrite <- app_assoc.
Qed.

(** The weather branch: the reply is that of [get_weather_info]. *)
Lemma agent_final_AssistantAgent_act_weather client w self o prompt :
  heap w !! self = Some o →
  Py.contains "weather" (normalize prompt) = true →
  (agent_final.AssistantAgent_act client self prompt w).1 =
    (agent_final.get_weather_info client self "Bangalore" w).1.
Proof.
  intros Hself Hyes. unfold agent_final.AssistantAgent_act, print_exchange.
  run_M. rewrite Hself, Hyes.
  by destruct (agent_final.get_weather_info client self "Bangalore" w)
    as [[response|e] w1].
Qed.

(** No key of the dictionary of [agent_final.py] mentions the weather. *)
Lemma agent_final_keys_no_weather name0 key reply :
  agent_final.knowledge_base name0 !! key = Some reply →
  Py.contains "weather" key = false.
Proof.
  unfold agent_final.knowledge_base.
  rewrite !lookup_insert_Some, lookup_empty.
  intros [[<- _]|[_ [[<- _]|[_ [[<- _]|[_ [[<- _]|[_ ?]]]]]]]];
    done.
Qed.

(** In [agent_final.py] the main's own weather question is not a key, and
    is answered by the weather service, not by the fallback. *)
Lemma C1_weather_prompt_not_fallback :
  heap demo_world !! 3 = Some cody_final ∧
  agent_final.knowledge_base "Cody" !! normalize "What's the weather like?"
    = None ∧
  (agent_final.AssistantAgent_act sunny 3 "What's the weather like?"
     demo_world).1
    = Return ("The current temperature in Bangalore is 27"
                +:+ agent_final.degree +:+ "C with Sunny.") ∧
  (agent_final.AssistantAgent_act sunny 3 "What's the weather like?"
     demo_world).1
    ≠ Return "I'm sorry, I don't understand that request. Try asking for 'help'.".
Proof. by vm_compute. Qed.

(** C1, amended.  For every prompt whose normalized form is not a key of the
    assistant's knowledge base: [AssistantAgent.act] of [agent.py] returns
    the fallback string; [AssistantAgent.act] of [agent_final.py] returns
    the fallback string when the normalized form does not contain "weather",
    and otherwise what [get_weather_info("Bangalore")] returns. *)
Theorem C1_unknown_prompt_fallback (w : world) (self : ref) (o : Agent)
    (kb : gmap string string) (prompt : string) :
  heap w !! self = Some o →
  fields o = IsAssistantAgent kb →
  kb !! normalize prompt = None →
  (agent.AssistantAgent_act self prompt w).1 =
    Return "I'm sorry, I don't understand that request. Try asking for 'help'." ∧
  (∀ client,
     ¬ substring "weather" (normalize prompt) →
     (agent_final.AssistantAgent_act client self prompt w).1 =
       Return "I'm sorry, I don't understand that request. Try asking for 'help'.") ∧
  (∀ client,
     substring "weather" (normalize prompt) →
     (agent_final.AssistantAgent_act client self prompt w).1 =
       (agent_final.get_weather_info client self "Bangalore" w).1).
Proof.
  intros Hself Hkb Hnone. repeat split.
  - rewrite (agent_AssistantAgent_act_spec w self o kb) by done.
    simpl. by rewrite Hnone.
  - intros client Hno%contains_not_substring.
    rewrite (agent_final_AssistantAgent_act_lookup client w self o kb) by done.
    simpl. by rewrite Hnone.
  - intros client Hyes%contains_substring.
    by apply (agent_final_AssistantAgent_act_weather client w self o).
Qed.

Lemma C1_unknown_prompt_witness :
  (agent.AssistantAgent_act 2 "what's the capital of France?" demo_world).1 =
    Return "I'm sorry, I don't understand that request. Try asking for 'help'.".
Proof.
  exact (proj1 (C1_unknown_prompt_fallback demo_world 2 cody
                  (agent.knowledge_base "Cody")
                  "what's the capital of France?" eq_refl eq_refl eq_refl)).
Defined.

(** C2. For every prompt whose normalized form is a key of the knowledge
    base the assistant was constructed with, [AssistantAgent.act] returns
    exactly the string stored under that key, in both scripts. *)
Theorem C2_known_prompt_reply (w : world) (self : ref) (o : Agent)
    (prompt reply : string) :
  heap w !! self = Some o →
  (fields o = IsAssistantAgent (agent.knowledge_base (name o)) →
   agent.knowledge_base (name o) !! normalize prompt = Some reply →
   (agent.AssistantAgent_act self prompt w).1 = Return reply) ∧
  (∀ client,
     fields o = IsAssistantAgent (agent_final.knowledge_base (name o)) →
     agent_final.knowledge_base (name o) !! normalize prompt = Some reply →
     (agent_final.AssistantAgent_act client self prompt w).1 = Return reply).
Proof.
  intros Hself. split.
  - intros Hkb Hkey.
    rewrite (agent_AssistantAgent_act_spec w self o _ prompt Hself Hkb).
    simpl. by rewrite Hkey.
  - intros client Hkb Hkey.
    rewrite (agent_final_AssistantAgent_act_lookup client w self o _ prompt
               Hself Hkb (agent_final_keys_no_weather _ _ _ Hkey)).
    simpl. by rewrite Hkey.
Qed.

Lemma C2_known_prompt_witness :
  (agent.AssistantAgent_act 2 "Hello" demo_world).1 =
    Return "Hello! How can I help you today?" ∧
  (agent_final.AssistantAgent_act offline 3 " NAME " demo_world).1 =
    Return "My name is Cody. What's yours?".
Proof.
  split.
  - exact (proj1 (C2_known_prompt_reply demo_world 2 cody "Hello" _ eq_refl)
             eq_refl eq_refl).
  - exact (proj2 (C2_known_prompt_reply demo_world 3 cody_final " NAME " _
                    eq_refl) offline eq_refl eq_refl).
Defined.

(** ** [get_weather_info] *)

(** Ctrl-C during the request is not an [Exception]: it goes through. *)
Lemma C6_interrupt_propagates :
  is_Exception (Exn false "") = false ∧
  agent_final.get_weather_info interrupted 3 "Bangalore" demo_world =
    (Raise (Exn false ""), demo_world).
Proof. by vm_compute. Qed.

(** C6, amended.  For every city, [get_weather_info] returns the formatted
    temperature and description when the weather client answers, and the
    "Sorry, I couldn't get the weather" string with the text of the
    exception when the client raises an instance of [Exception]; in both
    cases the world is unchanged.  An exception that is not an instance of
    [Exception] is not caught. *)
Theorem C6_get_weather_info_outcomes (client : agent_final.weather_client)
    (self : ref) (city : string) (w : world) :
  (∀ temperature description,
     client city = agent_final.Forecast temperature description →
     agent_final.get_weather_info client self city w =
       (Return ("The current temperature in " +:+ city +:+ " is "
                  +:+ Py.str_of_int temperature +:+ agent_final.degree
                  +:+ "C with " +:+ description +:+ "."), w)) ∧
  (∀ e,
     client city = agent_final.ClientRaises e →
     is_Exception e = true →
     agent_final.get_weather_info client self city w =
       (Return ("Sorry, I couldn't get the weather for " +:+ city
                  +:+ ". Error: " +:+ str_of_exn e), w)) ∧
  (∀ e,
     client city = agent_final.ClientRaises e →
     is_Exception e = false →
     agent_final.get_weather_info client self city w = (Raise e, w)).
Proof.
  unfold agent_final.get_weather_info, agent_final.await_get,
    try_except_Exception.
  repeat split.
  - intros temperature description Hc. run_M. by rewrite Hc.
  - intros e Hc He. run_M. by rewrite Hc; simpl; rewrite He.
  - intros e Hc He. run_M. by rewrite Hc; simpl; rewrite He.
Qed.

Lemma C6_get_weather_info_witness :
  agent_final.get_weather_info sunny 3 "Bangalore" demo_world =
    (Return ("The current temperature in Bangalore is 27"
               +:+ agent_final.degree +:+ "C with Sunny."), demo_world) ∧
  agent_final.get_weather_info offline 3 "Bangalore" demo_world =
    (Return "Sorry, I couldn't get the weather for Bangalore. Error: Cannot connect to host",
     demo_world).
Proof.
  split.
  - exact (proj1 (C6_get_weather_info_outcomes sunny 3 "Bangalore" demo_world)
             27%Z "Sunny" eq_refl).
  - exact (proj1 (proj2 (C6_get_weather_info_outcomes offline 3 "Bangalore"
                           demo_world))
             (Exn true "Cannot connect to host") eq_refl eq_refl).
Defined.

(** ** The statements on the inputs of the demonstrations *)

Lemma C7_Agent_act_witness :
  Agent_act 1 "Begin report preparation." demo_world =
    (Return "Agent Bob (analyst) is acting on prompt: 'Begin report preparation.'.",
     printed demo_world
       ["Agent Bob (analyst) is acting on prompt: 'Begin report preparation.'."]) ∧
  Agent_act 1 "" demo_world =
    (Return "Agent Bob (analyst) is performing a generic action.",
     printed demo_world
       ["Agent Bob (analyst) is performing a generic action."]).
Proof.
  split.
  - apply (C7_Agent_act_canned demo_world 1 bob "Begin report preparation."
             eq_refl).
    discriminate.
  - exact (proj2 (C7_Agent_act_canned demo_world 1 bob "" eq_refl) eq_refl).
Defined.

Lemma C10_malformed_query_witness :
  agent_final.KnowledgeGraphAgent_act 4 "Who is connected?" demo_world =
    (Return "Query format not understood. Please use 'Who is connected to [Node Name]?''",
     printed demo_world [received_query graph_bot "Who is connected?"]).
Proof.
  apply (C10_malformed_query demo_world 4 graph_bot "Who is connected?" eq_refl).
  apply contains_not_substring. reflexivity.
Defined.

Lemma C3_absent_node_witness :
  agent_final.KnowledgeGraphAgent_act 4 "Who is connected to Janitor?"
    demo_world =
    (Return "The node 'janitor' does not exist in the graph.",
     printed demo_world
       [received_query graph_bot "Who is connected to Janitor?"]).
Proof.
  destruct (C3_absent_node demo_world 4 graph_bot agent_final.main_graph
              "Who is connected to Janitor?" eq_refl eq_refl)
    as (target & Ht & Hact).
  - apply contains_substring. reflexivity.
  - vm_compute in Ht. injection Ht as <-.
    apply Hact. apply has_node_false. reflexivity.
Defined.

(** With a lowercase namesake in the graph, the documented query for the
    capitalised node is answered with the namesake's neighbours. *)
Lemma C4_lowercase_namesake_is_found :
  heap demo_world !! 5 = Some doctor_bot ∧
  nx.has_node two_doctors "Doctor" = true ∧
  Py.has_upper "Doctor" = true ∧
  (agent_final.KnowledgeGraphAgent_act 5 (documented_query "Doctor")
     demo_world).1
    = Return "The following are connected to 'doctor': Doctor." ∧
  (∀ target,
     (agent_final.KnowledgeGraphAgent_act 5 (documented_query "Doctor")
        demo_world).1
       ≠ Return (does_not_exist target)).
Proof.
  repeat split; try reflexivity.
  intros target Heq. vm_compute in Heq. discriminate Heq.
Qed.

(** ** Stripping *)

Section strip_facts.

Implicit Types (s t pre post : string) (c : ascii) (p : ascii → bool).

Lemma lower_app s t : Py.lower (s +:+ t) = Py.lower s +:+ Py.lower t.
Proof.
  induction s as [|c s IH]; [done|].
  rewrite append_cons. simpl. by rewrite IH.
Qed.

Lemma isspace_lower_char c : Py.isspace (Py.lower_char c) = Py.isspace c.
Proof. destruct c as [[] [] [] [] [] [] [] []]; reflexivity. Qed.

Lemma all_space_lower s :
  all_chars Py.isspace (Py.lower s) = all_chars Py.isspace s.
Proof.
  induction s as [|c s IH]; [done|]. simpl.
  by rewrite isspace_lower_char, IH.
Qed.

Lemma lstrip_all p s : all_chars p s = true → Py.lstrip p s = "".
Proof.
  induction s as [|c s IH]; [done|]. simpl.
  intros [Hc Hs]%andb_true_iff. rewrite Hc. by apply IH.
Qed.

Lemma rstrip_all p s : all_chars p s = true → Py.rstrip p s = "".
Proof.
  induction s as [|c s IH]; [done|]. simpl.
  intros [Hc Hs]%andb_true_iff. by rewrite (IH Hs), Hc.
Qed.

(** Leading characters of the set do not count. *)
Lemma lstrip_app_all p pre s :
  all_chars p pre = true → Py.lstrip p (pre +:+ s) = Py.lstrip p s.
Proof.
  induction pre as [|c pre IH]; [done|]. rewrite append_cons. simpl.
  intros [Hc Hs]%andb_true_iff. rewrite Hc. by apply IH.
Qed.

(** Trailing characters of the set do not count. *)
Lemma rstrip_app_all p s post :
  all_chars p post = true → Py.rstrip p (s +:+ post) = Py.rstrip p s.
Proof.
  intros Hpost. induction s as [|c s IH].
  - rewrite append_nil. by apply rstrip_all.
  - rewrite append_cons. simpl. by rewrite IH.
Qed.

Lemma strip_with_app_all p s post :
  all_chars p post = true →
  Py.rstrip p (Py.lstrip p (s +:+ post)) = Py.rstrip p (Py.lstrip p s).
Proof.
  intros Hpost. induction s as [|c s IH].
  - rewrite append_nil. by rewrite (lstrip_all p post).
  - rewrite append_cons. simpl. destruct (p c); [done|].
    by rewrite <- append_cons, rstrip_app_all.
Qed.

(** What [lstrip] leaves does not start with a character of the set. *)
Lemma lstrip_head p s c t : Py.lstrip p s = String c t → p c = false.
Proof.
  induction s as [|d s IH]; [done|]. simpl.
  destruct (p d) eqn:Hd; [done|]. by intros [= <- _].
Qed.

(** What [rstrip] leaves does not end with a character of the set. *)
Lemma rstrip_last p s t c : Py.rstrip p s = t +:+ String c "" → p c = false.
Proof.
  revert t. induction s as [|d s IH]; intros t; simpl.
  - by destruct t.
  - destruct (Py.rstrip p s) as [|e r] eqn:Hr.
    + destruct (p d) eqn:Hd; [by destruct t|].
      destruct t as [|a [|b t]]; [|done..]. by intros [= <-].
    + destruct t as [|a t]; [done|]. rewrite append_cons.
      intros [= _ Ht]. by apply (IH t).
Qed.

(** [rstrip] keeps the first character of what it leaves. *)
Lemma rstrip_head p s c t :
  Py.rstrip p s = String c t → ∃ t', s = String c t'.
Proof.
  destruct s as [|d s]; [done|]. simpl.
  destruct (Py.rstrip p s); [destruct (p d)|]; intros [= <- _]; eauto.
Qed.

Lemma lstrip_fixed p s :
  (∀ c t, s = String c t → p c = false) → Py.lstrip p s = s.
Proof.
  destruct s as [|c s]; [done|]. simpl. intros H.
  by rewrite (H c s eq_refl).
Qed.

Lemma rstrip_idemp p s : Py.rstrip p (Py.rstrip p s) = Py.rstrip p s.
Proof.
  induction s as [|c s IH]; [done|]. simpl.
  destruct (Py.rstrip p s) as [|d r] eqn:Hr.
  - destruct (p c) eqn:Hc; [done|]. simpl. by rewrite Hc.
  - simpl in *. by rewrite IH.
Qed.

(** Stripping twice is stripping once. *)
Lemma strip_with_idemp p s :
  Py.rstrip p (Py.lstrip p (Py.rstrip p (Py.lstrip p s))) =
    Py.rstrip p (Py.lstrip p s).
Proof.
  rewrite (lstrip_fixed p (Py.rstrip p (Py.lstrip p s))).
  - apply rstrip_idemp.
  - intros c t [t' Ht]%rstrip_head. by apply lstrip_head in Ht.
Qed.

(** [lstrip] leaves a suffix, [rstrip] a prefix. *)
Lemma lstrip_suffix p s : ∃ pre, s = pre +:+ Py.lstrip p s.
Proof.
  induction s as [|c s [pre IH]]; [by exists ""|]. simpl.
  destruct (p c); [|by exists ""].
  exists (String c pre). rewrite append_cons. by f_equal.
Qed.

Lemma append_nil_r s : s +:+ "" = s.
Proof. induction s as [|c s IH]; [done|]. rewrite append_cons. by f_equal. Qed.

Lemma rstrip_prefix p s : ∃ post, s = Py.rstrip p s +:+ post.
Proof.
  induction s as [|c s [post IH]]; [by exists ""|]. simpl.
  destruct (Py.rstrip p s) as [|d r] eqn:Hr.
  - destruct (p c).
    + exists (String c s). by rewrite append_nil.
    + exists post. rewrite append_cons. f_equal. by rewrite IH at 1.
  - exists post. rewrite append_cons. by f_equal.
Qed.

Lemma substring_strip_with p sub s :
  substring sub (Py.rstrip p (Py.lstrip p s)) → substring sub s.
Proof.
  intros (a & b & Hab).
  destruct (lstrip_suffix p s) as [pre Hpre].
  destruct (rstrip_prefix p (Py.lstrip p s)) as [post Hpost].
  exists (pre +:+ a), (b +:+ post).
  rewrite Hpre at 1. rewrite Hpost at 1. rewrite Hab.
  by rewrite !app_assoc_string.
Qed.

End strip_facts.

(** ** Normalised prompts *)

Lemma normalize_idemp prompt : normalize (normalize prompt) = normalize prompt.
Proof.
  unfold normalize, Py.strip. rewrite (proj1 (has_upper_false _)).
  - apply strip_with_idemp.
  - apply has_upper_rstrip, has_upper_lstrip, has_upper_lower.
Qed.

Lemma normalize_lower prompt : normalize (Py.lower prompt) = normalize prompt.
Proof. unfold normalize. by rewrite lower_idemp. Qed.

Lemma normalize_padded pre prompt post :
  all_chars Py.isspace pre = true →
  all_chars Py.isspace post = true →
  normalize (pre +:+ prompt +:+ post) = normalize prompt.
Proof.
  intros Hpre Hpost. unfold normalize, Py.strip. rewrite !lower_app.
  rewrite lstrip_app_all by by rewrite all_space_lower.
  apply strip_with_app_all. by rewrite all_space_lower.
Qed.

(** What is looked up has no whitespace at either end. *)
Lemma normalize_trimmed prompt :
  (∀ c t, normalize prompt = String c t → Py.isspace c = false) ∧
  (∀ t c, normalize prompt = t +:+ String c "" → Py.isspace c = false).
Proof.
  unfold normalize, Py.strip. split.
  - intros c t [t' Ht]%rstrip_head. by apply lstrip_head in Ht.
  - intros t c Ht. by apply rstrip_last in Ht.
Qed.

(** X6. [prompt.lower().strip()], the key both [AssistantAgent.act] look
    up, is idempotent, ignores the letter case of the prompt, ignores
    whitespace put before and after it, and neither starts nor ends with
    whitespace. *)
Theorem X6_normalize_insensitive (prompt pre post : string) :
  normalize (normalize prompt) = normalize prompt ∧
  normalize (Py.lower prompt) = normalize prompt ∧
  (all_chars Py.isspace pre = true →
   all_chars Py.isspace post = true →
   normalize (pre +:+ prompt +:+ post) = normalize prompt) ∧
  (∀ c t, normalize prompt = String c t → Py.isspace c = false) ∧
  (∀ t c, normalize prompt = t +:+ String c "" → Py.isspace c = false).
Proof.
  split; [apply normalize_idemp|]. split; [apply normalize_lower|].
  split; [apply normalize_padded|]. apply normalize_trimmed.
Qed.

Lemma X6_normalize_witness :
  normalize ("  " +:+ "HeLLo" +:+ " ") = normalize "HeLLo" ∧
  Py.isspace "h"%char = false ∧ Py.isspace "o"%char = false.
Proof.
  destruct (X6_normalize_insensitive "HeLLo" "  " " ")
    as (_ & _ & Hpad & Hhead & Hlast).
  split; [exact (Hpad eq_refl eq_refl)|].
  split; [exact (Hhead "h"%char "ello" eq_refl)
         | exact (Hlast "hell" "o"%char eq_refl)].
Defined.

(** ** Replies of the assistants *)

Lemma get_weather_info_world client self city w :
  (agent_final.get_weather_info client self city w).2 = w.
Proof.
  unfold agent_final.get_weather_info, agent_final.await_get,
    try_except_Exception. run_M.
  destruct (client city) as [t d|e]; simpl; [done|].
  by destruct (is_Exception e).
Qed.

(** The weather branch of [AssistantAgent.act] of [agent_final.py]. *)
Lemma agent_final_AssistantAgent_act_weather_spec client w self o prompt :
  heap w !! self = Some o →
  Py.contains "weather" (normalize prompt) = true →
  agent_final.AssistantAgent_act client self prompt w =
    match (agent_final.get_weather_info client self "Bangalore" w).1 with
    | Return response => (Return response, printed w (exchange o prompt response))
    | Raise e => (Raise e, w)
    end.
Proof.
  intros Hself Hyes. unfold agent_final.AssistantAgent_act, print_exchange.
  pose proof (get_weather_info_world client self "Bangalore" w) as Hw.
  run_M. rewrite Hself, Hyes.
  destruct (agent_final.get_weather_info client self "Bangalore" w)
    as [[response|e] w1]; simpl in *; subst w1; [|done].
  unfold exchange. by rewrite <- app_assoc.
Qed.

Lemma same_key_same_reply w self o kb prompt1 prompt2 :
  heap w !! self = Some o →
  fields o = IsAssistantAgent kb →
  normalize prompt1 = normalize prompt2 →
  (agent.AssistantAgent_act self prompt1 w).1 =
    (agent.AssistantAgent_act self prompt2 w).1 ∧
  (∀ client,
     (agent_final.AssistantAgent_act client self prompt1 w).1 =
       (agent_final.AssistantAgent_act client self prompt2 w).1).
Proof.
  intros Hself Hkb Hn. split.
  - rewrite !(agent_AssistantAgent_act_spec w self o kb) by done.
    simpl. by rewrite Hn.
  - intros client.
    destruct (Py.contains "weather" (normalize prompt1)) eqn:Hw.
    + rewrite !(agent_final_AssistantAgent_act_weather client w self o)
        by (by rewrite <- ?Hn). done.
    + rewrite !(agent_final_AssistantAgent_act_lookup client w self o kb)
        by (by rewrite <- ?Hn). simpl. by rewrite Hn.
Qed.

(** X7. The reply of [AssistantAgent.act], in both scripts, is the same for
    a prompt, for the prompt in lower case, and for the prompt between any
    whitespace. *)
Theorem X7_reply_ignores_case_and_padding (w : world) (self : ref)
    (o : Agent) (kb : gmap string string) (prompt pre post : string) :
  heap w !! self = Some o →
  fields o = IsAssistantAgent kb →
  all_chars Py.isspace pre = true →
  all_chars Py.isspace post = true →
  (agent.AssistantAgent_act self (pre +:+ prompt +:+ post) w).1 =
    (agent.AssistantAgent_act self prompt w).1 ∧
  (agent.AssistantAgent_act self (Py.lower prompt) w).1 =
    (agent.AssistantAgent_act self prompt w).1 ∧
  (∀ client,
     (agent_final.AssistantAgent_act client self (pre +:+ prompt +:+ post) w).1 =
       (agent_final.AssistantAgent_act client self prompt w).1 ∧
     (agent_final.AssistantAgent_act client self (Py.lower prompt) w).1 =
       (agent_final.AssistantAgent_act client self prompt w).1).
Proof.
  intros Hself Hkb Hpre Hpost.
  pose proof (same_key_same_reply w self o kb _ _ Hself Hkb
                (normalize_padded pre prompt post Hpre Hpost)) as [Hp1 Hp2].
  pose proof (same_key_same_reply w self o kb _ _ Hself Hkb
                (normalize_lower prompt)) as [Hl1 Hl2].
  split; [exact Hp1|]. split; [exact Hl1|]. intros client.
  split; [apply Hp2 | apply Hl2].
Qed.

Lemma X7_reply_witness :
  (agent.AssistantAgent_act 2 (" " +:+ "Help" +:+ "  ") demo_world).1 =
    (agent.AssistantAgent_act 2 "Help" demo_world).1.
Proof.
  exact (proj1 (X7_reply_ignores_case_and_padding demo_world 2 cody
                  (agent.knowledge_base "Cody") "Help" " " "  "
                  eq_refl eq_refl eq_refl eq_refl)).
Defined.

(** X11. When [AssistantAgent.act] returns, in either script, it has printed
    exactly two lines, the prompt as received and the response it returns,
    and changed nothing else; when it raises, it has printed nothing. *)
Theorem X11_assistant_log_matches_reply (w : world) (self : ref) (o : Agent)
    (kb : gmap string string) (prompt : string) :
  heap w !! self = Some o →
  fields o = IsAssistantAgent kb →
  (∃ response,
     agent.AssistantAgent_act self prompt w =
       (Return response, printed w (exchange o prompt response))) ∧
  (∀ client,
     (∃ response,
        agent_final.AssistantAgent_act client self prompt w =
          (Return response, printed w (exchange o prompt response))) ∨
     (∃ e, agent_final.AssistantAgent_act client self prompt w = (Raise e, w))).
Proof.
  intros Hself Hkb. split.
  - eexists. by apply (agent_AssistantAgent_act_spec w self o kb).
  - intros client.
    destruct (Py.contains "weather" (normalize prompt)) eqn:Hw.
    + rewrite (agent_final_AssistantAgent_act_weather_spec client w self o)
        by done.
      destruct (agent_final.get_weather_info client self "Bangalore" w).1;
        eauto.
    + left. eexists.
      by apply (agent_final_AssistantAgent_act_lookup client w self o kb).
Qed.

Lemma X11_assistant_log_witness :
  ∃ response,
    agent.AssistantAgent_act 2 "who are you?" demo_world =
      (Return response, printed demo_world (exchange cody "who are you?" response)).
Proof.
  exact (proj1 (X11_assistant_log_matches_reply demo_world 2 cody
                  (agent.knowledge_base "Cody") "who are you?"
                  eq_refl eq_refl)).
Defined.

(** X12. [AssistantAgent.act] of [agent.py] never raises on an assistant.
    That of [agent_final.py] raises only the exception the weather client
    raised for "Bangalore", only when that exception is not an instance of
    [Exception], and only for a prompt whose normalized form contains
    "weather". *)
Theorem X12_assistant_raises_only_from_weather (w : world) (self : ref)
    (o : Agent) (kb : gmap string string) (prompt : string) :
  heap w !! self = Some o →
  fields o = IsAssistantAgent kb →
  (∀ e, (agent.AssistantAgent_act self prompt w).1 ≠ Raise e) ∧
  (∀ client e,
     (agent_final.AssistantAgent_act client self prompt w).1 = Raise e →
     substring "weather" (normalize prompt) ∧
     client "Bangalore" = agent_final.ClientRaises e ∧
     is_Exception e = false).
Proof.
  intros Hself Hkb. split.
  - intros e. by rewrite (agent_AssistantAgent_act_spec w self o kb).
  - intros client e.
    destruct (Py.contains "weather" (normalize prompt)) eqn:Hw.
    + rewrite (agent_final_AssistantAgent_act_weather client w self o) by done.
      apply contains_substring in Hw. intros Hraise. split; [done|].
      revert Hraise. unfold agent_final.get_weather_info,
        agent_final.await_get, try_except_Exception. run_M.
      destruct (client "Bangalore") as [t d|e']; simpl; [done|].
      destruct (is_Exception e') eqn:He; simpl; [done|].
      by intros [= ->].
    + by rewrite (agent_final_AssistantAgent_act_lookup client w self o kb).
Qed.

Lemma X12_assistant_raises_witness :
  substring "weather" (normalize "weather?") ∧
  interrupted "Bangalore" = agent_final.ClientRaises (Exn false "") ∧
  is_Exception (Exn false "") = false.
Proof.
  exact (proj2 (X12_assistant_raises_only_from_weather demo_world 3 cody_final
                  (agent_final.knowledge_base "Cody") "weather?"
                  eq_refl eq_refl)
           interrupted (Exn false "") eq_refl).
Defined.

(** ** Answers of the graph agent *)

Lemma assoc_is_Some n l : n ∈ l.*1 ↔ is_Some (nx.assoc n l).
Proof.
  induction l as [|[m nbrs] l IH]; simpl.
  - split; [by intros ?%elem_of_nil | by intros [? ?]].
  - rewrite elem_of_cons, IH. simpl. destruct (decide (m = n)) as [->|Hne].
    + split; [eauto | by left].
    + split; [by intros [->|?] | by right].
Qed.

(** [n in G] holds exactly when [G.neighbors(n)] does not raise. *)
Lemma has_node_neighbors g n :
  nx.has_node g n = true ↔ is_Some (nx.neighbors g n).
Proof.
  unfold nx.has_node, nx.neighbors, nx.nodes.
  rewrite bool_decide_eq_true. apply assoc_is_Some.
Qed.

(** [KnowledgeGraphAgent.act] without the monad: the NetworkXError of
    [neighbors] is never reached. *)
Lemma KnowledgeGraphAgent_act_spec w self o g query :
  heap w !! self = Some o →
  fields o = IsKnowledgeGraphAgent g →
  agent_final.KnowledgeGraphAgent_act self query w =
    match agent_final.target_node query with
    | None =>
        (Return agent_final.format_error, printed w [received_query o query])
    | Some target =>
        match nx.neighbors g target with
        | None =>
            (Return (does_not_exist target),
             printed w [received_query o query])
        | Some neighbors =>
            (Return (connections target neighbors),
             printed w [received_query o query;
                        graph_responding o (connections target neighbors)])
        end
    end.
Proof.
  intros Hself Hg. unfold agent_final.KnowledgeGraphAgent_act, get_graph.
  run_M. rewrite Hself. simpl.
  destruct (agent_final.target_node query) as [target|]; [|done].
  rewrite Hg. simpl.
  destruct (nx.has_node g target) eqn:Hin; simpl.
  - apply has_node_neighbors in Hin as [nbrs Hn]. rewrite Hn.
    unfold connections, graph_responding.
    destruct nbrs; simpl; by rewrite <- app_assoc.
  - destruct (nx.neighbors g target) as [nbrs|] eqn:Hn; [|done].
    assert (nx.has_node g target = true) by (apply has_node_neighbors; eauto).
    congruence.
Qed.

(** X1. On an agent holding a graph whose nodes are strings,
    [KnowledgeGraphAgent.act] returns for every query: the NetworkXError of
    [neighbors] cannot occur, since the membership test comes first.  It
    prints the query it received first, and leaves the heap as it was. *)
Theorem X1_graph_act_returns (w : world) (self : ref) (o : Agent)
    (g : nx.Graph) (query : string) :
  heap w !! self = Some o →
  fields o = IsKnowledgeGraphAgent g →
  ∃ response lines,
    agent_final.KnowledgeGraphAgent_act self query w =
      (Return response, printed w (received_query o query :: lines)).
Proof.
  intros Hself Hg. rewrite (KnowledgeGraphAgent_act_spec w self o g) by done.
  destruct (agent_final.target_node query) as [target|]; [|by eexists _, _].
  destruct (nx.neighbors g target); by eexists _, _.
Qed.

Lemma X1_graph_act_witness :
  ∃ response lines,
    agent_final.KnowledgeGraphAgent_act 5 "Who is connected to Doctor?"
      demo_world =
      (Return response,
       printed demo_world
         (received_query doctor_bot "Who is connected to Doctor?" :: lines)).
Proof.
  exact (X1_graph_act_returns demo_world 5 doctor_bot two_doctors
           "Who is connected to Doctor?" eq_refl eq_refl).
Defined.



(** ** Which nodes a query can name *)

Lemma strip_prefix_app sep s t rest :
  Py.strip_prefix sep s = Some rest →
  Py.strip_prefix sep (s +:+ t) = Some (rest +:+ t).
Proof.
  intros Hs%strip_prefix_Some. apply strip_prefix_Some.
  subst s. by rewrite app_assoc_string.
Qed.

(** The text before the leftmost separator holds no separator. *)
Lemma find_before sep s before after :
  sep ≠ "" → Py.find sep s = Some (before, after) → Py.find sep before = None.
Proof.
  intros Hsep. revert before. induction s as [|c s IH]; intros before; simpl.
  - destruct (Py.strip_prefix sep "") as [rest|] eqn:Hp; [|done].
    intros [= <- <-]. by destruct sep.
  - destruct (Py.strip_prefix sep (String c s)) as [rest|] eqn:Hp.
    + intros [= <- <-]. by destruct sep.
    + destruct (Py.find sep s) as [[b a]|] eqn:Hf; [|done].
      intros [= <- <-]. simpl.
      destruct (Py.strip_prefix sep (String c b)) as [rest|] eqn:Hb.
      * apply (strip_prefix_app _ _ (sep +:+ a)) in Hb.
        apply find_Some in Hf. rewrite append_cons, <- Hf in Hb. congruence.
      * by rewrite (IH b eq_refl).
Qed.

(** No piece of a split holds the separator. *)
Lemma split_pieces_free sep s :
  sep ≠ "" → Forall (λ part, Py.find sep part = None) (Py.split sep s).
Proof.
  intros Hsep. remember (String.length s) as n eqn:Hn.
  revert s Hn. induction (lt_wf n) as [n _ IH]; intros s ->.
  rewrite split_unfold by done.
  destruct (Py.find sep s) as [[b a]|] eqn:Hf; [|by repeat constructor].
  constructor; [by eapply find_before|].
  by eapply IH; [eapply find_shorter|].
Qed.

Lemma target_node_free query target :
  agent_final.target_node query = Some target → ¬ substring "to " target.
Proof.
  unfold agent_final.target_node.
  pose proof (split_pieces_free "to " (Py.lower query) ltac:(done)) as Hall.
  destruct (Py.split "to " (Py.lower query)) as [|part0 [|part1 parts]];
    [done..|].
  intros [= <-]. apply Forall_cons in Hall as [_ [Hp _]%Forall_cons].
  intros Hsub%substring_strip_with.
  apply contains_substring in Hsub. unfold Py.contains in Hsub.
  by rewrite Hp in Hsub.
Qed.

Lemma target_node_trimmed query target :
  agent_final.target_node query = Some target →
  (∀ c t, target = String c t → Py.char_in "? " c = false) ∧
  (∀ t c, target = t +:+ String c "" → Py.char_in "? " c = false).
Proof.
  unfold agent_final.target_node.
  destruct (Py.split "to " (Py.lower query)) as [|part0 [|part1 parts]];
    [done..|].
  intros [= <-]. unfold Py.strip_chars. split.
  - intros c t [t' Ht]%rstrip_head. by apply lstrip_head in Ht.
  - intros t c Ht. by apply rstrip_last in Ht.
Qed.

(** X4. The target parsed from a query never contains "to ", never starts
    or ends with a question mark or a space, and holds no uppercase letter:
    a node whose name does is never looked up, whatever the query. *)
Theorem X4_target_shape (query target : string) :
  agent_final.target_node query = Some target →
  ¬ substring "to " target ∧
  (∀ c t, target = String c t → c ≠ "?"%char ∧ c ≠ " "%char) ∧
  (∀ t c, target = t +:+ String c "" → c ≠ "?"%char ∧ c ≠ " "%char) ∧
  Py.lower target = target.
Proof.
  intros Ht. split; [by eapply target_node_free|].
  destruct (target_node_trimmed query target Ht) as [Hhead Hlast].
  assert (∀ c, Py.char_in "? " c = false → c ≠ "?"%char ∧ c ≠ " "%char)
    as Hset.
  { intros c Hc. split; intros ->; discriminate Hc. }
  split; [|split].
  - intros c t Heq. eapply Hset, Hhead, Heq.
  - intros t c Heq. eapply Hset, Hlast, Heq.
  - by apply has_upper_false, (target_node_lowercase query).
Qed.

Lemma X4_target_shape_witness :
  ¬ substring "to " "rome" ∧ Py.lower "rome" = "rome".
Proof.
  destruct (X4_target_shape "Who is connected to Rome to Paris?" "rome"
              eq_refl) as (Hfree & _ & _ & Hlow).
  split; [exact Hfree | exact Hlow].
Defined.

Lemma strip_prefix_to_question s :
  Py.strip_prefix "to " s = None → Py.strip_prefix "to " (s +:+ "?") = None.
Proof.
  destruct s as [|a [|b [|c s]]]; rewrite ?append_cons, ?append_nil; simpl;
    repeat case_decide; done.
Qed.

Lemma find_cons sep c s :
  Py.find sep (String c s) =
    match Py.strip_prefix sep (String c s) with
    | Some rest => Some ("", rest)
    | None =>
        match Py.find sep s with
        | Some (before, after) => Some (String c before, after)
        | None => None
        end
    end.
Proof. reflexivity. Qed.

Lemma find_to_question s :
  Py.find "to " s = None → Py.find "to " (s +:+ "?") = None.
Proof.
  induction s as [|c s IH]; [done|].
  rewrite append_cons, !find_cons.
  destruct (Py.strip_prefix "to " (String c s)) as [rest|] eqn:Hp; [done|].
  rewrite <- append_cons, (strip_prefix_to_question _ Hp).
  destruct (Py.find "to " s) as [[b a]|]; [done|].
  intros _. by rewrite IH.
Qed.

(** The target of the documented query for a lowercase name without "to "
    and without question marks or spaces at its ends is that name. *)
Lemma target_node_documented node :
  Py.lower node = node →
  ¬ substring "to " node →
  Py.strip_chars "? " node = node →
  agent_final.target_node (documented_query node) = Some node.
Proof.
  intros Hlow Hfree%contains_not_substring Htrim.
  unfold agent_final.target_node, documented_query.
  rewrite !lower_app, Hlow.
  change (Py.lower "Who is connected to ") with "who is connected to ".
  change (Py.lower "?") with "?".
  rewrite split_unfold by done.
  change (Py.find "to " ("who is connected to " +:+ node +:+ "?"))
    with (Some ("who is connected ", node +:+ "?")).
  cbv beta iota. rewrite split_unfold by done.
  unfold Py.contains in Hfree.
  destruct (Py.find "to " node) eqn:Hf; [done|].
  rewrite (find_to_question node Hf). f_equal.
  unfold Py.strip_chars in *.
  by rewrite strip_with_app_all.
Qed.



(** ** Replies do not depend on the past *)

Lemma get_weather_info_value client self city w1 w2 :
  (agent_final.get_weather_info client self city w1).1 =
    (agent_final.get_weather_info client self city w2).1.
Proof.
  unfold agent_final.get_weather_info, agent_final.await_get,
    try_except_Exception. run_M.
  destruct (client city) as [t d|e]; simpl; [done|].
  by destruct (is_Exception e).
Qed.

(** The value of [x.act(prompt)] is fixed by the name, the role and the
    subclass attributes of [x]. *)
Lemma act_value s client self prompt w1 w2 o1 o2 :
  heap w1 !! self = Some o1 →
  heap w2 !! self = Some o2 →
  name o1 = name o2 → role o1 = role o2 → fields o1 = fields o2 →
  (act s client self prompt w1).1 = (act s client self prompt w2).1.
Proof.
  intros H1 H2 Hname Hrole Hfields. unfold act.
  unfold mbind, M_bind, load. rewrite H1, H2, <- Hfields.
  assert ((Agent_act self prompt w1).1 = (Agent_act self prompt w2).1)
    as Hbase.
  { unfold Agent_act. run_M. rewrite H1, H2, Hname, Hrole.
    by destruct prompt. }
  assert (∀ g, fields o1 = IsKnowledgeGraphAgent g →
            (agent_final.KnowledgeGraphAgent_act self prompt w1).1 =
              (agent_final.KnowledgeGraphAgent_act self prompt w2).1)
    as Hgraph.
  { intros g Hg.
    rewrite (KnowledgeGraphAgent_act_spec w1 self o1 g),
      (KnowledgeGraphAgent_act_spec w2 self o2 g) by congruence.
    destruct (agent_final.target_node prompt) as [target|]; [|done].
    by destruct (nx.neighbors g target). }
  destruct (fields o1) as [|kb|g] eqn:Hf1; symmetry in Hfields; destruct s;
    try exact Hbase; try exact (Hgraph g eq_refl).
  - rewrite (agent_AssistantAgent_act_spec w1 self o1 kb) by done.
    by rewrite (agent_AssistantAgent_act_spec w2 self o2 kb).
  - destruct (Py.contains "weather" (normalize prompt)) eqn:Hw.
    + rewrite (agent_final_AssistantAgent_act_weather client w1 self o1),
        (agent_final_AssistantAgent_act_weather client w2 self o2) by done.
      apply get_weather_info_value.
    + rewrite (agent_final_AssistantAgent_act_lookup client w1 self o1 kb)
        by done.
      by rewrite (agent_final_AssistantAgent_act_lookup client w2 self o2 kb).
Qed.

(** X8. What [act] returns does not depend on what happened before: after
    any sequence of calls to [act], [get_weather_info] and [send_message],
    an agent of any class answers a prompt as it did before them (for the
    same answer of the weather service). *)
Theorem X8_reply_independent_of_history (s : script)
    (client : agent_final.weather_client) (calls : list call) (w : world)
    (self : ref) (o : Agent) (prompt : string) :
  heap w !! self = Some o →
  (act s client self prompt (run s calls w)).1 =
    (act s client self prompt w).1.
Proof.
  intros Hself.
  by apply (act_value s client self prompt _ _ _ o
              (run_frame s calls w self o Hself) Hself).
Qed.

Lemma X8_reply_witness :
  (act agent_py sunny 2 "Hello"
     (run agent_py [call_send_message 0 2 "ping"; call_act sunny 2 "time"]
        demo_world)).1 =
    (act agent_py sunny 2 "Hello" demo_world).1.
Proof.
  exact (X8_reply_independent_of_history agent_py sunny
           [call_send_message 0 2 "ping"; call_act sunny 2 "time"]
           demo_world 2 cody "Hello" eq_refl).
Defined.

(** ** Inboxes *)

(** X10. For an agent of any class and any sequence of calls, the calls
    leave the agent its name, role and subclass attributes, and its inbox
    is the inbox it had followed by the messages that [send_message] calls
    with a live sender addressed to it, in the order of the calls: no
    message is lost, reordered, or put in another agent's inbox. *)
Theorem X10_inbox_only_grows (s : script) (calls : list call) (w : world)
    (r : ref) (o : Agent) :
  heap w !! r = Some o →
  ∃ o',
    heap (run s calls w) !! r = Some o' ∧
    name o' = name o ∧ role o' = role o ∧ fields o' = fields o ∧
    message_inbox o' =
      message_inbox o ++ omap (delivers (heap w) r) calls.
Proof.
  intros Hr. eexists. split; [by apply run_frame|]. done.
Qed.

Lemma X10_inbox_witness :
  ∃ o',
    heap (run agent_final_py
            [call_send_message 0 1 "one"; call_send_message 1 0 "two";
             call_act sunny 1 ""; call_send_message 0 1 "three"]
            demo_world) !! 1 = Some o' ∧
    name o' = "Bob" ∧ role o' = "analyst" ∧ fields o' = IsAgent ∧
    message_inbox o' = ["one"; "three"].
Proof.
  exact (X10_inbox_only_grows agent_final_py
           [call_send_message 0 1 "one"; call_send_message 1 0 "two";
            call_act sunny 1 ""; call_send_message 0 1 "three"]
           demo_world 1 bob eq_refl).
Defined.

(** ** Construction *)

(** X9. Building two agents and sending a message from the first to the
    second, as [main] does: the two references are new and distinct, the
    first agent has an empty inbox and the second holds exactly the
    message, every object that existed keeps its state, and one line is
    printed. *)
Theorem X9_introduce (name1 role1 name2 role2 message : string) (w : world) :
  ∃ agent_a agent_b w',
    introduce name1 role1 name2 role2 message w =
      (Return (agent_a, agent_b), w') ∧
    agent_a ≠ agent_b ∧
    heap w !! agent_a = None ∧ heap w !! agent_b = None ∧
    heap w' !! agent_a = Some (mkAgent name1 role1 [] IsAgent) ∧
    heap w' !! agent_b = Some (mkAgent name2 role2 [message] IsAgent) ∧
    (∀ r o, heap w !! r = Some o → heap w' !! r = Some o) ∧
    stdout w' =
      stdout w ++ ["Agent " +:+ name1 +:+ " is sending a message to "
                     +:+ name2 +:+ ": '" +:+ message +:+ "'"].
Proof.
  set (a := fresh (dom (heap w))).
  set (oa := mkAgent name1 role1 [] IsAgent).
  set (ob := mkAgent name2 role2 [] IsAgent).
  set (b := fresh (dom (<[a := oa]> (heap w)))).
  assert (heap w !! a = None) as Ha by apply not_elem_of_dom, is_fresh.
  assert (<[a := oa]> (heap w) !! b = None) as Hb
    by apply not_elem_of_dom, is_fresh.
  assert (a ≠ b) as Hab.
  { intros Heq. rewrite <- Heq, lookup_insert_eq in Hb. done. }
  rewrite lookup_insert_ne in Hb by done.
  exists a, b. eexists. split.
  - unfold introduce, Agent_init, alloc.
    unfold mbind at 1, M_bind at 1. simpl.
    unfold mbind at 1, M_bind at 1. simpl. fold a oa. fold b ob.
    unfold mbind, M_bind.
    rewrite (send_message_live _ a b oa ob).
    + reflexivity.
    + simpl. rewrite lookup_insert_ne by done. apply lookup_insert_eq.
    + simpl. apply lookup_insert_eq.
  - simpl. repeat split; try done.
    + rewrite insert_insert_eq, lookup_insert_ne by done.
      apply lookup_insert_eq.
    + rewrite insert_insert_eq. apply lookup_insert_eq.
    + intros r o Hr. rewrite insert_insert_eq.
      rewrite !lookup_insert_ne by congruence. done.
Qed.

Lemma X9_introduce_witness :
  ∃ agent_a agent_b w',
    introduce "Carol" "planner" "Dave" "tester" "Run the suite." demo_world =
      (Return (agent_a, agent_b), w') ∧
    agent_a ≠ agent_b ∧
    heap w' !! agent_b = Some (mkAgent "Dave" "tester" ["Run the suite."] IsAgent) ∧
    heap w' !! 0 = Some alice.
Proof.
  destruct (X9_introduce "Carol" "planner" "Dave" "tester" "Run the suite."
              demo_world)
    as (a & b & w' & Hrun & Hne & _ & _ & _ & Hb & Hold & _).
  exists a, b, w'.
  split; [exact Hrun|]. split; [exact Hne|]. split; [exact Hb|].
  exact (Hold 0 alice eq_refl).
Defined.

(** ** The two scripts side by side *)

(** The two dictionaries differ only at the key "weather". *)
Lemma knowledge_bases_agree name0 key :
  key ≠ "weather" →
  agent.knowledge_base name0 !! key = agent_final.knowledge_base name0 !! key.
Proof.
  intros Hkey. unfold agent.knowledge_base, agent_final.knowledge_base.
  destruct (decide (key = "hello")) as [->|Hne];
    [by rewrite !lookup_insert_eq|].
  rewrite !(lookup_insert_ne _ "hello") by done.
  by rewrite (lookup_insert_ne _ "weather") by done.
Qed.

(** X5. On every prompt whose normalized form does not contain "weather",
    the assistants of [agent.py] and of [agent_final.py] built with the same
    name give the same reply. *)
Theorem X5_scripts_agree_off_weather (w1 w2 : world) (self1 self2 : ref)
    (o1 o2 : Agent) (client : agent_final.weather_client) (prompt : string) :
  heap w1 !! self1 = Some o1 →
  fields o1 = IsAssistantAgent (agent.knowledge_base (name o1)) →
  heap w2 !! self2 = Some o2 →
  fields o2 = IsAssistantAgent (agent_final.knowledge_base (name o2)) →
  name o1 = name o2 →
  ¬ substring "weather" (normalize prompt) →
  (agent.AssistantAgent_act self1 prompt w1).1 =
    (agent_final.AssistantAgent_act client self2 prompt w2).1.
Proof.
  intros H1 Hkb1 H2 Hkb2 Hname Hno.
  rewrite (agent_AssistantAgent_act_spec w1 self1 o1 _ prompt H1 Hkb1).
  rewrite (agent_final_AssistantAgent_act_lookup client w2 self2 o2 _ prompt
             H2 Hkb2) by by apply contains_not_substring.
  simpl. rewrite Hname, knowledge_bases_agree; [done|].
  intros Heq. apply Hno. rewrite Heq. by exists "", "".
Qed.

Lemma X5_scripts_agree_witness :
  (agent.AssistantAgent_act 2 "What time is it?" demo_world).1 =
    (agent_final.AssistantAgent_act offline 3 "What time is it?" demo_world).1.
Proof.
  apply (X5_scripts_agree_off_weather demo_world demo_world 2 3 cody
           cody_final offline "What time is it?"
           eq_refl eq_refl eq_refl eq_refl eq_refl).
  apply contains_not_substring. reflexivity.
Defined.

(** ** Capitalised nodes *)

(** The documented query always has a target. *)
Lemma target_node_documented_is_Some node :
  is_Some (agent_final.target_node (documented_query node)).
Proof.
  apply target_node_is_Some. unfold documented_query.
  rewrite !lower_app. exists "who is connected ", (Py.lower node +:+ "?").
  change (Py.lower "Who is connected to ") with ("who is connected " +:+ "to ").
  change (Py.lower "?") with "?".
  by rewrite !app_assoc_string.
Qed.

(** The documented query for a name is parsed as the one for its lowercase
    form: the lowercase name itself, when that has no "to " and neither
    starts nor ends with a question mark or a space. *)
Lemma target_node_documented_lower node :
  ¬ substring "to " (Py.lower node) →
  Py.strip_chars "? " (Py.lower node) = Py.lower node →
  agent_final.target_node (documented_query node) = Some (Py.lower node).
Proof.
  intros Hfree Htrim.
  rewrite <- (target_node_documented (Py.lower node) (lower_idemp node)
                Hfree Htrim).
  unfold agent_final.target_node, documented_query.
  by rewrite !lower_app, lower_idemp.
Qed.

(** C4, amended.  The target parsed by [KnowledgeGraphAgent.act] never holds
    an uppercase letter (a letter that [lower] changes), so it is never a
    node whose name holds one, and for every query [act] returns the "does
    not exist" message for the parsed target unless the graph also has a
    node named by that target.  The documented query for a node always has
    a target, the lowercased name when that has no "to " and no question
    mark or space at its ends.  In particular, on a graph all of whose node
    names hold an uppercase letter every query with a target gets the "does
    not exist" message, and the documented query for each of the six nodes
    of the graph built in [main] gets it for the lowercased name. *)
Theorem C4_uppercase_nodes_unreachable :
  (∀ query target,
     agent_final.target_node query = Some target →
     Py.has_upper target = false) ∧
  (∀ w self o g query target node,
     heap w !! self = Some o →
     fields o = IsKnowledgeGraphAgent g →
     Py.has_upper node = true →
     agent_final.target_node query = Some target →
     target ≠ node ∧
     (target ∉ nx.nodes g →
      (agent_final.KnowledgeGraphAgent_act self query w).1 =
        Return (does_not_exist target))) ∧
  (∀ node, ∃ target,
     agent_final.target_node (documented_query node) = Some target) ∧
  (∀ node,
     ¬ substring "to " (Py.lower node) →
     Py.strip_chars "? " (Py.lower node) = Py.lower node →
     agent_final.target_node (documented_query node) = Some (Py.lower node)) ∧
  (∀ w self o g query target,
     heap w !! self = Some o →
     fields o = IsKnowledgeGraphAgent g →
     Forall (λ node, Py.has_upper node = true) (nx.nodes g) →
     agent_final.target_node query = Some target →
     (agent_final.KnowledgeGraphAgent_act self query w).1 =
       Return (does_not_exist target)) ∧
  (∀ w self o node,
     heap w !! self = Some o →
     fields o = IsKnowledgeGraphAgent agent_final.main_graph →
     node ∈ nx.nodes agent_final.main_graph →
     (agent_final.KnowledgeGraphAgent_act self (documented_query node) w).1 =
       Return (does_not_exist (Py.lower node))).
Proof.
  split; [apply target_node_lowercase|].
  assert (∀ w self o g query target,
     heap w !! self = Some o →
     fields o = IsKnowledgeGraphAgent g →
     agent_final.target_node query = Some target →
     target ∉ nx.nodes g →
     (agent_final.KnowledgeGraphAgent_act self query w).1 =
       Return (does_not_exist target)) as Habsent.
  { intros w self o g query target Hself Hg Ht Habs.
    by rewrite (KnowledgeGraphAgent_act_absent w self o g query target). }
  split.
  { intros w self o g query target node Hself Hg Hup Ht.
    split; [by apply (target_node_not_upper query)|].
    by apply (Habsent w self o g). }
  split; [apply target_node_documented_is_Some|].
  split; [apply target_node_documented_lower|].
  assert (∀ w self o g query target,
     heap w !! self = Some o →
     fields o = IsKnowledgeGraphAgent g →
     Forall (λ node, Py.has_upper node = true) (nx.nodes g) →
     agent_final.target_node query = Some target →
     (agent_final.KnowledgeGraphAgent_act self query w).1 =
       Return (does_not_exist target)) as Hall.
  { intros w self o g query target Hself Hg Hup Ht.
    apply (Habsent w self o g); try done.
    intros Hin. rewrite Forall_forall in Hup.
    exact (target_node_not_upper query target target Ht (Hup _ Hin) eq_refl). }
  split; [exact Hall|].
  intros w self o node Hself Hg Hnode.
  apply (Hall w self o agent_final.main_graph); try done.
  - by repeat constructor.
  - change (nx.nodes agent_final.main_graph)
      with ["Hospital"; "Doctor"; "Patient A"; "Patient B"; "Nurse"; "Clinic"]
      in Hnode.
    repeat (apply elem_of_cons in Hnode as [->|Hnode]; [reflexivity|]).
    by apply elem_of_nil in Hnode.
Qed.

Lemma C4_uppercase_nodes_witness :
  "doctor" ≠ "Doctor" ∧
  (agent_final.KnowledgeGraphAgent_act 0 (documented_query "Doctor")
     mixed_world).1
    = Return "The node 'doctor' does not exist in the graph." ∧
  agent_final.target_node (documented_query "Patient A") = Some "patient a" ∧
  (agent_final.KnowledgeGraphAgent_act 4 (documented_query "Doctor")
     demo_world).1
    = Return "The node 'doctor' does not exist in the graph." ∧
  (agent_final.KnowledgeGraphAgent_act 4 (documented_query "Patient A")
     demo_world).1
    = Return "The node 'patient a' does not exist in the graph.".
Proof.
  destruct C4_uppercase_nodes_unreachable
    as (_ & Hmixed & _ & Hlower & Hall & Hmain).
  destruct (Hmixed mixed_world 0 mixed_bot mixed_graph
              (documented_query "Doctor") "doctor" "Doctor"
              eq_refl eq_refl eq_refl eq_refl) as [Hne Habsent].
  split; [exact Hne|]. split.
  { apply Habsent. apply has_node_false. reflexivity. }
  split.
  { apply (Hlower "Patient A"); [|reflexivity].
    apply contains_not_substring. reflexivity. }
  split.
  - apply (Hall demo_world 4 graph_bot agent_final.main_graph
             (documented_query "Doctor") "doctor" eq_refl eq_refl).
    + by repeat constructor.
    + reflexivity.
  - apply (Hmain demo_world 4 graph_bot "Patient A" eq_refl eq_refl).
    apply (bool_decide_unpack _). reflexivity.
Defined.
